(** * smyp: the chat-session formatter, segmentation and merge core

    A shallow embedding of [scripts/lib/parsers.js],
    [scripts/lib/transformers.js], the legacy monolithic
    [scripts/format-chat-session.js] and the idempotence check of
    [processContent], with the properties of the specification stated over
    it.  The renderer of [scripts/lib/formatters.js] is modelled as well, so
    that [processContent] is whole.

    Modelling conventions.
    - A JavaScript string is a [string]: a sequence of 8-bit code units (the
      UTF-8 bytes of the text).  The character classes of the source regular
      expressions are taken on ASCII: white space ([\s], [trim]) is TAB, LF,
      VT, FF, CR and SPACE; [.] is every unit except LF and CR.  JavaScript
      also counts U+00A0, U+1680, U+2000 to U+200A, U+2028, U+2029, U+202F,
      U+205F, U+3000 and U+FEFF as white space, and U+2028 and U+2029 as
      line terminators: the classes of this file are those of the source on
      every text that holds none of these ([Further.plainSpaced]), and the
      properties that depend on it say so.
    - An array is a [list]; [push] appends at the end.
    - Objects are records.  A section made by the parser is a [section]; what
      the mergers push is a [merged_section]: either a parser section passed
      on as it is, or the fresh object [{type: 'agent-response', content,
      actions}] whose [actions] are parser sections.
    - Loops are folds or recursive functions over the remaining slice of the
      array they walk. *)

From Stdlib Require Import String Ascii List Bool Arith Lia.
From Stdlib Require Import DecimalString DecimalNat.
Import ListNotations.
Open Scope string_scope.
Open Scope list_scope.

Set Implicit Arguments.

(* ------------------------------------------------------------------------- *)
(** * JavaScript string primitives *)
(* ------------------------------------------------------------------------- *)

Module JsString.

Definition LF : ascii := "010"%char.
Definition CR : ascii := "013"%char.
Definition TAB : ascii := "009"%char.
Definition DQUOTE : ascii := "034"%char.

(** The one-character string holding a line feed. *)
Definition nl : string := String LF "".

(** [\s], on ASCII: TAB, LF, VT, FF, CR and SPACE. *)
Definition isSpace (c : ascii) : bool :=
  let n := nat_of_ascii c in
  Nat.eqb n 9 || Nat.eqb n 10 || Nat.eqb n 11 || Nat.eqb n 12 ||
  Nat.eqb n 13 || Nat.eqb n 32.

(** [\d] *)
Definition isDigit (c : ascii) : bool :=
  let n := nat_of_ascii c in Nat.leb 48 n && Nat.leb n 57.

(** [.] without the [s] flag: anything but a line terminator, on ASCII:
    LF and CR. *)
Definition isDot (c : ascii) : bool :=
  negb (Ascii.eqb c LF) && negb (Ascii.eqb c CR).

(** [s.startsWith(p)] *)
Definition startsWith (s p : string) : bool := String.prefix p s.

(** [s.slice(n)] for [0 <= n]. *)
Fixpoint drop (n : nat) (s : string) : string :=
  match n, s with
  | O, _ => s
  | S _, "" => ""
  | S n', String _ s' => drop n' s'
  end.

(** [s.includes(p)] *)
Fixpoint includes (s p : string) : bool :=
  startsWith s p ||
  match s with
  | "" => false
  | String _ s' => includes s' p
  end.

(** [s.trimStart()] *)
Fixpoint trimStart (s : string) : string :=
  match s with
  | "" => ""
  | String c s' => if isSpace c then trimStart s' else s
  end.

(** [s.trimEnd()] *)
Fixpoint trimEnd (s : string) : string :=
  match s with
  | "" => ""
  | String c s' =>
      match trimEnd s' with
      | "" => if isSpace c then "" else String c ""
      | t => String c t
      end
  end.

(** [s.trim()] *)
Definition trim (s : string) : string := trimEnd (trimStart s).

(** [s.endsWith(' ')] and [s.endsWith('  ')] *)
Fixpoint endsWithSpace (s : string) : bool :=
  match s with
  | "" => false
  | String c "" => Ascii.eqb c " "
  | String _ s' => endsWithSpace s'
  end.

Fixpoint endsWithTwoSpaces (s : string) : bool :=
  match s with
  | "" => false
  | String c s' =>
      match s' with
      | String d "" => Ascii.eqb c " " && Ascii.eqb d " "
      | _ => endsWithTwoSpaces s'
      end
  end.

(** [s.split('\n')]: never empty, [''.split('\n')] is [['']]. *)
Fixpoint splitLines (s : string) : list string :=
  match s with
  | "" => [""]
  | String c s' =>
      if Ascii.eqb c LF then "" :: splitLines s'
      else match splitLines s' with
           | [] => [String c ""]
           | l :: ls => String c l :: ls
           end
  end.

(** No unit of [s] is a line feed. *)
Fixpoint noLineFeed (s : string) : bool :=
  match s with
  | "" => true
  | String c s' => negb (Ascii.eqb c LF) && noLineFeed s'
  end.

(** [lines.join('\n')] *)
Definition joinLines (ls : list string) : string := String.concat nl ls.

(** [s.replace(p, r)] with a string pattern [p]: the first occurrence only.
    (The replacements of the modelled calls hold no [$].) *)
Fixpoint replaceFirst (p r s : string) : string :=
  if startsWith s p then r ++ drop (String.length p) s
  else match s with
       | "" => ""
       | String c s' => String c (replaceFirst p r s')
       end.

(** [s.split(sep)] for a one-unit separator. *)
Fixpoint splitOn (sep : ascii) (s : string) : list string :=
  match s with
  | "" => [""]
  | String c s' =>
      if Ascii.eqb c sep then "" :: splitOn sep s'
      else match splitOn sep s' with
           | [] => [String c ""]
           | l :: ls => String c l :: ls
           end
  end.

(** The text before and after the first occurrence of [p] in [s]. *)
Fixpoint findFirst (p s : string) : option (string * string) :=
  if startsWith s p then Some ("", drop (String.length p) s)
  else match s with
       | "" => None
       | String c s' =>
           match findFirst p s' with
           | Some (before, after) => Some (String c before, after)
           | None => None
           end
       end.

(** The replacement text of [s.replace(p, r)] for a string pattern: in [r],
    [$$] is a dollar sign, [$&] the matched text, [$`] what precedes it and
    [$'] what follows it; any other [$] stands for itself. *)
Fixpoint expandReplacement (matched before after r : string) : string :=
  match r with
  | "" => ""
  | String c r' =>
      if Ascii.eqb c "$" then
        match r' with
        | String d r'' =>
            if Ascii.eqb d "$" then
              String "$" (expandReplacement matched before after r'')
            else if Ascii.eqb d "&" then
              (matched ++ expandReplacement matched before after r'')%string
            else if Ascii.eqb d "`" then
              (before ++ expandReplacement matched before after r'')%string
            else if Ascii.eqb d "'" then
              (after ++ expandReplacement matched before after r'')%string
            else String c (expandReplacement matched before after r')
        | "" => String c ""
        end
      else String c (expandReplacement matched before after r')
  end.

(** [s.replace(p, r)] with a string pattern and a replacement string. *)
Definition replaceWith (p r s : string) : string :=
  match findFirst p s with
  | Some (before, after) =>
      (before ++ expandReplacement p before after r ++ after)%string
  | None => s
  end.

(** [\w] *)
Definition isWordChar (c : ascii) : bool :=
  let n := nat_of_ascii c in
  (Nat.leb 97 n && Nat.leb n 122) || (Nat.leb 65 n && Nat.leb n 90) ||
  (Nat.leb 48 n && Nat.leb n 57) || Ascii.eqb c "_".

(** [c.repeat(n)] *)
Fixpoint repeatChar (c : ascii) (n : nat) : string :=
  match n with
  | O => ""
  | S n' => String c (repeatChar c n')
  end.

(** The longest prefix of [s] made of units satisfying [p], and what follows:
    a greedy [[class]*]. *)
Fixpoint spanWhile (p : ascii -> bool) (s : string) : string * string :=
  match s with
  | "" => ("", "")
  | String c s' =>
      if p c then let '(a, b) := spanWhile p s' in (String c a, b)
      else ("", s)
  end.

(** [`${n}`] for a non-negative integer. *)
Definition ofNat (n : nat) : string := NilEmpty.string_of_uint (Nat.to_uint n).

End JsString.

Import JsString.

(* ------------------------------------------------------------------------- *)
(** * Data model: sections *)
(* ------------------------------------------------------------------------- *)

(** The four values of a section's [type]: ['unknown'], ['user-prompt'],
    ['agent-response'] and ['agent-action']. *)
Inductive section_type : Set :=
  | unknown
  | user_prompt
  | agent_response
  | agent_action.

Definition section_type_eqb (a b : section_type) : bool :=
  match a, b with
  | unknown, unknown
  | user_prompt, user_prompt
  | agent_response, agent_response
  | agent_action, agent_action => true
  | _, _ => false
  end.

(** A section object of the parser: [{type, content, raw}], with an [actions]
    array on the sections opened by a technical action ([None] is a missing
    property). *)
Record section : Set := mkSection {
  type : section_type;
  content : list string;
  actions : option (list string);
  raw : string
}.

(** What a merger pushes on [merged]. *)
Inductive merged_section : Set :=
  | Passed (s : section)
  | Fused (fusedContent : list string) (fusedActions : list section).

Definition merged_type (m : merged_section) : section_type :=
  match m with
  | Passed s => type s
  | Fused _ _ => agent_response
  end.

(** [`__ACTION_PLACEHOLDER_${n}__`] *)
Definition placeholder (n : nat) : string :=
  "__ACTION_PLACEHOLDER_" ++ ofNat n ++ "__".

(** [Array.isArray(c) ? c.join('\n') : c] on a content that is an array. *)
Definition joinContent (s : section) : string := joinLines (content s).

(* ------------------------------------------------------------------------- *)
(** * The modular merger ([lib/parsers.js]) *)
(* ------------------------------------------------------------------------- *)

Module Modular.

(** The [state] object of [mergeSections]. *)
Record merge_state : Set := mkState {
  currentPrompt : option section;
  agentContent : list string;
  agentActions : list section
}.

(** The [while] loop of [flushAgentContent] once [agentContent] is used up:
    only the second [if] fires. *)
Fixpoint flushActions (restActions : list section)
    (fusedContent : list string) (fusedActions : list section)
    : list string * list section :=
  match restActions with
  | [] => (fusedContent, fusedActions)
  | a :: restActions' =>
      flushActions restActions'
        (fusedContent ++ [placeholder (length fusedActions)])
        (fusedActions ++ [a])
  end.

(** The [while] loop of [flushAgentContent]; [restContent] and [restActions]
    are [agentContent.slice(contentIndex)] and [agentActions.slice(actionIndex)].
    One turn of the loop pushes the next content, if any, then the next
    placeholder and action, if any. *)
Fixpoint flushLoop (restContent : list string) (restActions : list section)
    (fusedContent : list string) (fusedActions : list section)
    : list string * list section :=
  match restContent with
  | [] => flushActions restActions fusedContent fusedActions
  | c :: restContent' =>
      match restActions with
      | [] => flushLoop restContent' [] (fusedContent ++ [c]) fusedActions
      | a :: restActions' =>
          flushLoop restContent' restActions'
            ((fusedContent ++ [c]) ++ [placeholder (length fusedActions)])
            (fusedActions ++ [a])
      end
  end.

(** [flushAgentContent(merged, state)]: returns the new [merged] and [state]. *)
Definition flushAgentContent (merged : list merged_section)
    (state : merge_state) : list merged_section * merge_state :=
  match agentContent state, agentActions state with
  | [], [] => (merged, state)
  | _, _ =>
      let '(fusedContent, fusedActions) :=
        flushLoop (agentContent state) (agentActions state) [] [] in
      (merged ++ [Fused fusedContent fusedActions],
       mkState (currentPrompt state) [] [])
  end.

(** The body of the [for ... of] loop of [mergeSections]. *)
Definition mergeStep (acc : list merged_section * merge_state) (s : section)
    : list merged_section * merge_state :=
  let '(merged, state) := acc in
  match type s with
  | user_prompt =>
      let '(merged, state) := flushAgentContent merged state in
      (merged ++ [Passed s],
       mkState (Some s) (agentContent state) (agentActions state))
  | agent_response =>
      (merged,
       mkState (currentPrompt state)
         (agentContent state ++ [joinContent s]) (agentActions state))
  | agent_action =>
      (merged,
       mkState (currentPrompt state)
         (agentContent state) (agentActions state ++ [s]))
  | unknown => (merged, state)
  end.

Definition mergeSections (sections : list section) : list merged_section :=
  let '(merged, state) :=
    fold_left mergeStep sections ([], mkState None [] []) in
  fst (flushAgentContent merged state).

End Modular.

(* ------------------------------------------------------------------------- *)
(** * The legacy merger (monolithic [format-chat-session.js]) *)
(* ------------------------------------------------------------------------- *)

Module Legacy.

(** The inner [while]: collects [sections[i]] while it is not a user prompt.
    Returns [agentContent] and the slice left from the new [i]. *)
Fixpoint collectAgent (rest : list section) : list section * list section :=
  match rest with
  | [] => ([], [])
  | s :: rest' =>
      if section_type_eqb (type s) user_prompt then ([], rest)
      else let '(agentContent, rest'') := collectAgent rest' in
           (s :: agentContent, rest'')
  end.

(** The [for (const item of agentContent)] loop. *)
Definition fuseStep (acc : list string * list section) (item : section)
    : list string * list section :=
  let '(fusedContent, fusedActions) := acc in
  match type item with
  | agent_response => (fusedContent ++ [joinContent item], fusedActions)
  | agent_action =>
      (fusedContent ++ [placeholder (length fusedActions)],
       fusedActions ++ [item])
  | _ => (fusedContent, fusedActions)
  end.

Definition fuse (agentContent : list section) : list merged_section :=
  match agentContent with
  | [] => []
  | _ =>
      let '(fusedContent, fusedActions) :=
        fold_left fuseStep agentContent ([], []) in
      [Fused fusedContent fusedActions]
  end.

(** The outer [while (i < sections.length)]; [rest] is [sections.slice(i)].
    Every turn of the loop moves [i] forward, so [length rest] turns are
    enough ([mergeLoop_fuel]). *)
Fixpoint mergeLoop (fuel : nat) (rest : list section)
    (merged : list merged_section) : list merged_section :=
  match fuel with
  | O => merged
  | S fuel' =>
      match rest with
      | [] => merged
      | s :: rest' =>
          if section_type_eqb (type s) user_prompt then
            let '(agentContent, rest'') := collectAgent rest' in
            mergeLoop fuel' rest'' ((merged ++ [Passed s]) ++ fuse agentContent)
          else
            mergeLoop fuel' rest' (merged ++ [Passed s])
      end
  end.

Definition mergeSections (sections : list section) : list merged_section :=
  mergeLoop (length sections) sections [].

End Legacy.

(* ------------------------------------------------------------------------- *)
(** * Line classifier ([lib/constants.js]) *)
(* ------------------------------------------------------------------------- *)

Module Classifier.

(** [(.+?)\)] at the start of [s]: one unit matched by [.], then the shortest
    run of [.] units that reaches a closing parenthesis. *)
Fixpoint lazyDotsThenParen (s : string) : bool :=
  match s with
  | "" => false
  | String c s' =>
      if Ascii.eqb c ")" then true
      else isDot c && lazyDotsThenParen s'
  end.

Definition dotPlusLazyThenParen (s : string) : bool :=
  match s with
  | "" => false
  | String c s' => isDot c && lazyDotsThenParen s'
  end.

(** [\d+] followed by the literal [lit], at the start of [s]. *)
Definition digitsThen (lit s : string) : option string :=
  let '(ds, rest) := spanWhile isDigit s in
  match ds with
  | "" => None
  | _ => if startsWith rest lit then Some (drop (String.length lit) rest)
         else None
  end.

(** [/^Read \[\]\(file:\/\/(.+?)\)/] and its [Created] twin. *)
Definition fileAction (verb line : string) : bool :=
  let p := (verb ++ " [](file://")%string in
  startsWith line p && dotPlusLazyThenParen (drop (String.length p) line).

(** [/^Completed \(\d+\/\d+\)/] *)
Definition completedAction (line : string) : bool :=
  let p := "Completed (" in
  startsWith line p &&
  match digitsThen "/" (drop (String.length p) line) with
  | Some rest =>
      match digitsThen ")" rest with
      | Some _ => true
      | None => false
      end
  | None => false
  end.

(** [/^Created \d+ todos/] *)
Definition createdTodosAction (line : string) : bool :=
  let p := "Created " in
  startsWith line p &&
  match digitsThen " todos" (drop (String.length p) line) with
  | Some _ => true
  | None => false
  end.

(** [ACTION_PATTERNS], each as its [test]. *)
Definition ACTION_PATTERNS : list (string -> bool) :=
  [ fileAction "Read";
    fileAction "Created";
    (fun line =>
       startsWith line
         ("Using " ++ String DQUOTE "Replace String in File" ++
          String DQUOTE "")%string);
    (fun line => startsWith line "Searched text for");
    (fun line => startsWith line "Updated todo list");
    completedAction;
    (fun line => startsWith line "Made changes.");
    (fun line => startsWith line "Summarized conversation history");
    createdTodosAction ].

(** [NOISE_PATTERNS]: both are anchored at both ends. *)
Definition NOISE_PATTERNS : list (string -> bool) :=
  [ (fun s => String.eqb s "Continue to iterate?");
    (fun s => String.eqb s "[object Object]") ].

(** [IGNORE_USER_PROMPTS] *)
Definition IGNORE_USER_PROMPTS : list (string -> bool) :=
  [ (fun s => startsWith s "@agent Continue:");
    (fun s => startsWith s "Continue:") ].

(** [PATTERNS.some(pattern => pattern.test(s))] *)
Definition some (patterns : list (string -> bool)) (s : string) : bool :=
  existsb (fun pattern => pattern s) patterns.

End Classifier.

(* ------------------------------------------------------------------------- *)
(** * Segmenter: [parseContent] ([lib/parsers.js]) *)
(* ------------------------------------------------------------------------- *)

Module Segmenter.

Import Classifier.

(** The variables of [parseContent] that the loop changes. *)
Record parser_state : Set := mkParser {
  sections : list section;
  currentSection : section;
  inCodeBlock : bool;
  inAction : bool
}.

(** [currentSection.content.push(line)] *)
Definition pushContent (cur : section) (line : string) : section :=
  mkSection (type cur) (content cur ++ [line]) (actions cur) (raw cur).

(** [currentSection.actions.push(line)].  Without an [actions] array the call
    would throw; [inAction] is only set on a section that has one
    ([inAction_actions]), so that branch leaves the section as it is. *)
Definition pushAction (cur : section) (line : string) : section :=
  match actions cur with
  | Some acts =>
      mkSection (type cur) (content cur) (Some (acts ++ [line])) (raw cur)
  | None => cur
  end.

(** [if (currentSection.content.length > 0) { currentSection.raw = ...;
    sections.push({ ...currentSection }) }] *)
Definition closeIfContent (secs : list section) (cur : section)
    : list section :=
  match content cur with
  | [] => secs
  | _ => secs ++ [mkSection (type cur) (content cur) (actions cur)
                            (joinLines (content cur))]
  end.

(** The end of an action sequence on ordinary text:
    [if (currentSection.actions?.length > 0) { content = actions;
    raw = actions.join('\n'); sections.push(...) }]. *)
Definition closeActions (secs : list section) (cur : section)
    : list section :=
  match actions cur with
  | Some ((_ :: _) as acts) =>
      secs ++ [mkSection (type cur) acts (Some acts) (joinLines acts)]
  | _ => secs
  end.

(** One turn of the [for] loop over the lines. *)
Definition step (userIdentifier : string) (st : parser_state) (line : string)
    : parser_state :=
  if some NOISE_PATTERNS (trim line) then st
  else if startsWith line "```" then
    mkParser (sections st) (pushContent (currentSection st) line)
             (negb (inCodeBlock st)) (inAction st)
  else if inCodeBlock st then
    mkParser (sections st) (pushContent (currentSection st) line)
             (inCodeBlock st) (inAction st)
  else if startsWith line (userIdentifier ++ ":")%string then
    let promptContent :=
      trim (replaceFirst (userIdentifier ++ ":")%string "" line) in
    if some IGNORE_USER_PROMPTS promptContent then st
    else
      mkParser (closeIfContent (sections st) (currentSection st))
               (mkSection user_prompt [promptContent] None "")
               (inCodeBlock st) false
  else if startsWith line "GitHub Copilot:" then
    mkParser (closeIfContent (sections st) (currentSection st))
             (mkSection agent_response
                [trim (replaceFirst "GitHub Copilot:" "" line)] None "")
             (inCodeBlock st) false
  else
    let isAction := some ACTION_PATTERNS line in
    let st1 :=
      if isAction && negb (inAction st) then
        mkParser
          (match type (currentSection st) with
           | agent_response => closeIfContent (sections st) (currentSection st)
           | _ => sections st
           end)
          (mkSection agent_action [] (Some []) "")
          (inCodeBlock st) true
      else st in
    if inAction st1 then
      if isAction then
        mkParser (sections st1) (pushAction (currentSection st1) line)
                 (inCodeBlock st1) (inAction st1)
      else if String.eqb (trim line) "" then st1
      else
        mkParser (closeActions (sections st1) (currentSection st1))
                 (mkSection agent_response [line] None "")
                 (inCodeBlock st1) false
    else
      mkParser (sections st1) (pushContent (currentSection st1) line)
               (inCodeBlock st1) (inAction st1).

Definition initial : parser_state :=
  mkParser [] (mkSection unknown [] None "") false false.

(** [parseContent(content, userIdentifier)] *)
Definition parseContent (content userIdentifier : string) : list section :=
  let st := fold_left (step userIdentifier) (splitLines content) initial in
  closeIfContent (sections st) (currentSection st).

(** [inAction] is only set while the open section carries an [actions]
    array, so [currentSection.actions.push] never meets a missing property. *)
Definition actionsPresent (st : parser_state) : Prop :=
  inAction st = true -> actions (currentSection st) <> None.

End Segmenter.

(* ------------------------------------------------------------------------- *)
(** * Text transform pipeline ([lib/transformers.js]) *)
(* ------------------------------------------------------------------------- *)

Module Transformers.

(** The [LineContext] object. *)
Record LineContext : Set := mkContext {
  inCodeBlock : bool;
  index : nat;
  prevLine : string;
  nextLine : string;
  trimmedLine : string;
  prevTrimmed : string;
  nextTrimmed : string
}.

Definition transformer : Set := string -> LineContext -> string.

(** The callback of [lines.map] in [transformLines], from line [index] on;
    [inCodeBlock] is the closure variable before the line, [prevLine] is
    [lines[index - 1]], or [''] at the start. *)
Fixpoint transformFrom (transformers : list transformer) (inCodeBlock : bool)
    (index : nat) (prevLine : string) (lines : list string) : list string :=
  match lines with
  | [] => []
  | line :: rest =>
      let trimmedLine := trim line in
      let nextLine := match rest with [] => "" | n :: _ => n end in
      let inCodeBlock :=
        if startsWith trimmedLine "```" then negb inCodeBlock else inCodeBlock in
      let context :=
        mkContext inCodeBlock index prevLine nextLine trimmedLine
                  (trim prevLine) (trim nextLine) in
      fold_left (fun acc fn => fn acc context) transformers line
        :: transformFrom transformers inCodeBlock (S index) line rest
  end.

Definition transformLines (text : string) (transformers : list transformer)
    : string :=
  joinLines (transformFrom transformers false 0 "" (splitLines text)).

(** The heading pattern of [shiftHeadingLevel]: one to six [#], then [\s+],
    then the rest of the line captured by a greedy run of [.] up to the end.
    Returns the number of marks and the heading text. *)
Definition headingMatch (s : string) : option (nat * string) :=
  let '(hashes, rest) := spanWhile (Ascii.eqb "#") s in
  let level := String.length hashes in
  if Nat.leb 1 level && Nat.leb level 6 then
    let '(spaces, headingText) := spanWhile isSpace rest in
    match spaces with
    | "" => None
    | _ =>
        let '(dots, tail) := spanWhile isDot headingText in
        match tail with
        | "" => Some (level, headingText)
        | _ => None
        end
    end
  else None.

Definition shiftHeadingLevel : transformer := fun line context =>
  if inCodeBlock context then line
  else match headingMatch (trimmedLine context) with
       | Some (currentLevel, headingText) =>
           let newLevel := Nat.min (currentLevel + 1) 6 in
           (repeatChar "#" newLevel ++ " " ++ headingText)%string
       | None => line
       end.

(** [s.match(/^\d+\. /)] as a truth value. *)
Definition orderedItem (s : string) : bool :=
  match Classifier.digitsThen ". " s with
  | Some _ => true
  | None => false
  end.

Definition addLineBreak : transformer := fun line context =>
  if inCodeBlock context then line
  else if String.eqb (trimmedLine context) "" ||
          startsWith line "#" ||
          startsWith line "- " ||
          startsWith line "* " ||
          orderedItem line ||
          includes line "|" ||
          startsWith (trimmedLine context) "<!--" ||
          startsWith line "   " ||
          startsWith line (String TAB "")
  then line
  else
    let nextTrimmed := nextTrimmed context in
    let isNextLineEmpty := String.eqb nextTrimmed "" in
    let isNextLineStructure :=
      startsWith nextTrimmed "#" ||
      startsWith nextTrimmed "- " ||
      startsWith nextTrimmed "* " ||
      orderedItem nextTrimmed ||
      includes nextTrimmed "|" ||
      startsWith nextTrimmed "```" ||
      startsWith nextTrimmed "   " ||
      startsWith nextTrimmed (String TAB "") in
    if negb isNextLineEmpty && negb isNextLineStructure
    then (line ++ "  ")%string
    else line.

Definition removeTrailingSpace : transformer := fun line context =>
  if negb (endsWithSpace line) then line
  else if endsWithSpace line && negb (endsWithTwoSpaces line) then trimEnd line
  else if endsWithTwoSpaces line && String.eqb (nextTrimmed context) ""
  then trimEnd line
  else line.

Definition shiftHeadingLevels (text : string) : string :=
  transformLines text [shiftHeadingLevel].

Definition forceLineBreaks (text : string) : string :=
  transformLines text [addLineBreak].

Definition removeTrailingSpaces (text : string) : string :=
  transformLines text [removeTrailingSpace].

(** What the replacement of [/\n{3,}/g] leaves of a run of [run] line feeds. *)
Definition lineFeeds (run : nat) : string :=
  if Nat.leb 3 run then (nl ++ nl)%string else repeatChar LF run.

(** [text.replace(/\n{3,}/g, '\n\n')]: [run] counts the line feeds read since
    the last other unit; a maximal run of three or more becomes two. *)
Fixpoint replaceRuns (run : nat) (text : string) : string :=
  match text with
  | "" => lineFeeds run
  | String c text' =>
      if Ascii.eqb c LF then replaceRuns (S run) text'
      else (lineFeeds run ++ String c (replaceRuns 0 text'))%string
  end.

Definition cleanExcessiveLineBreaks (text : string) : string :=
  replaceRuns 0 text.

(** [/^#{1,6}\s/.test(s)] *)
Definition isHeadingLine (s : string) : bool :=
  let '(hashes, rest) := spanWhile (Ascii.eqb "#") s in
  let level := String.length hashes in
  Nat.leb 1 level && Nat.leb level 6 &&
  match rest with
  | String c _ => isSpace c
  | "" => false
  end.

(** [/^[-*]\s/.test(s) || /^\d+\.\s/.test(s)] *)
Definition isListItemLine (s : string) : bool :=
  match s with
  | String c (String d _) =>
      (Ascii.eqb c "-" || Ascii.eqb c "*") && isSpace d
  | _ => false
  end ||
  match Classifier.digitsThen "." s with
  | Some (String d _) => isSpace d
  | _ => false
  end.

(** The [for] loop of [ensureMarkdownSpacing] from line [i] on; [prevLine] is
    [lines[i - 1]], or [''] at the start.  Returns what is pushed on [result]. *)
Fixpoint spacingFrom (prevLine : string) (lines : list string) : list string :=
  match lines with
  | [] => []
  | line :: rest =>
      let trimmedLine := trim line in
      let prevTrimmed := trim prevLine in
      let isHeading := isHeadingLine trimmedLine in
      let isListItem := isListItemLine trimmedLine in
      let prevIsListItem := isListItemLine prevTrimmed in
      let isListStart :=
        isListItem && negb prevIsListItem && negb (String.eqb prevTrimmed "") in
      let isCodeBlockMarker := startsWith trimmedLine "```" in
      let prevIsCodeBlockMarker := startsWith prevTrimmed "```" in
      let needsDoubleLineBreak :=
        (isHeading || isListStart || isCodeBlockMarker) &&
        negb (String.eqb prevTrimmed "") &&
        negb (startsWith prevTrimmed "---") &&
        negb (startsWith prevTrimmed "<!--") &&
        negb prevIsCodeBlockMarker in
      let nextLine := match rest with [] => "" | n :: _ => n end in
      (if needsDoubleLineBreak then [""] else []) ++
      [line] ++
      (if isHeading && negb (String.eqb (trim nextLine) "") then [""] else []) ++
      spacingFrom line rest
  end.

Definition ensureMarkdownSpacing (text : string) : string :=
  joinLines (spacingFrom "" (splitLines text)).

(** [compose(...fns)]: left to right. *)
Definition compose (fns : list (string -> string)) (value : string) : string :=
  fold_left (fun acc fn => fn acc) fns value.

End Transformers.

(* ------------------------------------------------------------------------- *)
(** * Renderer ([lib/formatters.js]) and project root ([lib/parsers.js]) *)
(* ------------------------------------------------------------------------- *)

Module Formatters.

(** [MARKERS] and [VISUAL_MARKERS] of [lib/constants.js]. *)
Definition USER_PROMPT : string := "<!-- user-prompt -->".
Definition AGENT_RESPONSE : string := "<!-- agent-response -->".
Definition AGENT_ACTION : string := "<!-- agent-action -->".
Definition VISUAL_USER_PROMPT : string := "## 👤 User Prompt".
Definition VISUAL_AGENT_RESPONSE : string := "## 🤖 Response".
Definition VISUAL_AGENT_ACTION : string :=
  "<details><summary>🔧 Technical Actions</summary>".
Definition VISUAL_AGENT_ACTION_END : string := "</details>".

Section Decoding.

(** [decodeURIComponent]; [None] when it throws. *)
Variable decodeURIComponent : string -> option string.

Definition safeDecodeURI (uri : string) : string :=
  match decodeURIComponent uri with
  | Some decoded => decoded
  | None => uri
  end.

(** The lazy [(.+?)] of the project-root pattern after its first unit: up to
    the first of [)], [#] and white space. *)
Fixpoint lazyPath (s : string) : option string :=
  match s with
  | "" => None
  | String c s' =>
      if Ascii.eqb c ")" || Ascii.eqb c "#" || isSpace c then Some ""
      else if isDot c then
        match lazyPath s' with
        | Some path => Some (String c path)
        | None => None
        end
      else None
  end.

(** The pattern [file:\/\/\/(.+?)[)#\s]] tried at the start of [s]: the
    captured path. *)
Definition fileUrlAt (s : string) : option string :=
  if startsWith s "file:///" then
    match drop 8 s with
    | String c s' =>
        if isDot c then
          match lazyPath s' with
          | Some path => Some (String c path)
          | None => None
          end
        else None
    | "" => None
    end
  else None.

(** [content.match(...)]: the leftmost place where the pattern matches. *)
Fixpoint findFileUrl (s : string) : option string :=
  match fileUrlAt s with
  | Some path => Some path
  | None =>
      match s with
      | "" => None
      | String _ s' => findFileUrl s'
      end
  end.

Definition withLeadingSlash (path : string) : string :=
  if startsWith path "/" then path else String "/" path.

(** [extractProjectRoot(content)] *)
Definition extractProjectRoot (content : string) : option string :=
  match findFileUrl content with
  | None => None
  | Some fullPath =>
      let fullPath := safeDecodeURI (withLeadingSlash fullPath) in
      let parts :=
        filter (fun part => negb (String.eqb part "")) (splitOn "/" fullPath) in
      if Nat.leb 4 (length parts)
      then Some (String "/" (String.concat "/" (firstn 4 parts)))
      else None
  end.

(** [extractFilename(path)] *)
Definition extractFilename (path : string) : string :=
  let cleanPath :=
    fst (spanWhile (fun c => negb (Ascii.eqb c "#" || Ascii.eqb c "?")) path) in
  match last (splitOn "/" cleanPath) "" with
  | "" => path
  | filename => filename
  end.

(** [[^)#\s]] *)
Definition isUrlChar (c : ascii) : bool :=
  negb (Ascii.eqb c ")" || Ascii.eqb c "#" || isSpace c).

(** The action-link pattern tried at the start of [s]: a run of word units,
    the literal [ [](file:///] and a run of URL units.  Returns the action
    type, the path after [file:///] and the length of the match. *)
Definition actionLinkAt (s : string) : option (string * string * nat) :=
  let '(actionType, rest) := spanWhile isWordChar s in
  match actionType with
  | "" => None
  | _ =>
      if startsWith rest " [](file:///" then
        let '(path, _) := spanWhile isUrlChar (drop 12 rest) in
        match path with
        | "" => None
        | _ => Some (actionType, path,
                     String.length actionType + 12 + String.length path)
        end
      else None
  end.

(** The callback of [formatActionLink]. *)
Definition formatLink (projectRoot actionType path : string) : string :=
  let path := safeDecodeURI (withLeadingSlash path) in
  let filename := extractFilename path in
  let simplifiedPath :=
    if startsWith path projectRoot then replaceFirst projectRoot "" path
    else path in
  (actionType ++ " [" ++ filename ++ "](" ++ simplifiedPath)%string.

(** The global replacement of [formatActionLink]; [skip] counts the units of
    the last match still to pass. *)
Fixpoint replaceLinks (projectRoot : string) (skip : nat) (s : string)
    : string :=
  match s with
  | "" => ""
  | String c s' =>
      match skip with
      | S skip' => replaceLinks projectRoot skip' s'
      | O =>
          match actionLinkAt s with
          | Some (actionType, path, len) =>
              (formatLink projectRoot actionType path ++
               replaceLinks projectRoot (len - 1) s')%string
          | None => String c (replaceLinks projectRoot 0 s')
          end
      end
  end.

(** [formatActionLink(action, projectRoot)] *)
Definition formatActionLink (action : string) (projectRoot : option string)
    : string :=
  match projectRoot with
  | Some (String _ _ as root) => replaceLinks root 0 action
  | _ => action
  end.

(** The list of action lines of a collapsible block:
    [lines.filter(a => a).map(a => `- ${formatActionLink(a, root)}`).join('\n')] *)
Definition formatActions (lines : list string) (projectRoot : option string)
    : string :=
  joinLines
    (map (fun action => ("- " ++ formatActionLink action projectRoot)%string)
         (filter (fun action => negb (String.eqb action "")) lines)).

End Decoding.

(** The kinds of context reference and their emoji. *)
Definition referenceKinds : list (string * string) :=
  [("file", "📄"); ("folder", "📁"); ("dir", "📁"); ("sym", "🔣")].

(** The first alternative of the context-reference pattern for one kind,
    tried at the start of [s] (which begins with [#]): the replacement and
    the length of the match. *)
Definition referenceOfKind (s : string) (kind : string * string)
    : option (string * nat) :=
  let opener := ("#" ++ fst kind ++ ":")%string in
  if startsWith s opener then
    let '(path, _) :=
      spanWhile (fun c => negb (isSpace c)) (drop (String.length opener) s) in
    match path with
    | "" => None
    | _ => Some (("`" ++ snd kind ++ " " ++ path ++ "`")%string,
                 String.length opener + String.length path)
    end
  else None.

(** The context-reference pattern tried at the start of [s]. *)
Definition referenceAt (s : string) : option (string * nat) :=
  match
    fold_left
      (fun found kind =>
         match found with
         | Some _ => found
         | None => referenceOfKind s kind
         end)
      referenceKinds None
  with
  | Some found => Some found
  | None =>
      if startsWith s "#selection" then
        match drop 10 s with
        | String c _ => if isWordChar c then None
                        else Some ("`🔎 selection`", 10)
        | "" => Some ("`🔎 selection`", 10)
        end
      else None
  end.

(** The global replacement of [formatContextReferences]. *)
Fixpoint replaceReferences (skip : nat) (s : string) : string :=
  match s with
  | "" => ""
  | String c s' =>
      match skip with
      | S skip' => replaceReferences skip' s'
      | O =>
          match referenceAt s with
          | Some (replacement, len) =>
              (replacement ++ replaceReferences (len - 1) s')%string
          | None => String c (replaceReferences 0 s')
          end
      end
  end.

Definition formatContextReferences (text : string) : string :=
  replaceReferences 0 text.

(** One line of [formatTerminalCommands]: the pattern is
    [Ran terminal command: ] and then one or more [.] up to the end. *)
Definition formatTerminalCommand (line : string) : string :=
  let opener := "Ran terminal command: " in
  if startsWith line opener then
    match spanWhile isDot (drop (String.length opener) line) with
    | (String _ _ as command, "") =>
        joinLines ["▶️ **Terminal command:**"; "```bash"; command; "```"]
    | _ => line
    end
  else line.

Definition formatTerminalCommands (text : string) : string :=
  joinLines (map formatTerminalCommand (splitLines text)).

Section Rendering.

Variable decodeURIComponent : string -> option string.

(** The collapsible block put in place of a placeholder. *)
Definition actionBlock (lines : list string) (projectRoot : option string)
    : string :=
  joinLines [""; ""; AGENT_ACTION; VISUAL_AGENT_ACTION; "";
             formatActions decodeURIComponent lines projectRoot; "";
             VISUAL_AGENT_ACTION_END; ""; ""].

(** The [actions.forEach] of the agent-response case, from [index] on: every
    action is the list of its lines, or [None] when it is falsy and
    skipped. *)
Fixpoint substituteActions (blocks : list (option (list string)))
    (projectRoot : option string) (index : nat) (responseText : string)
    : string :=
  match blocks with
  | [] => responseText
  | block :: rest =>
      substituteActions rest projectRoot (S index)
        match block with
        | None => responseText
        | Some lines =>
            replaceWith (placeholder index) (actionBlock lines projectRoot)
                        responseText
        end
  end.

(** The agent-response case of [formatSection]. *)
Definition formatResponse (body : list string)
    (blocks : list (option (list string))) (projectRoot : option string)
    : string :=
  let responseText := String.concat (nl ++ nl) body in
  let responseText := substituteActions blocks projectRoot 0 responseText in
  let formattedText :=
    Transformers.compose
      [formatContextReferences; Transformers.shiftHeadingLevels;
       formatTerminalCommands; Transformers.forceLineBreaks]
      responseText in
  joinLines [AGENT_RESPONSE; VISUAL_AGENT_RESPONSE; ""; formattedText; ""; ""].

(** [formatSection(section, projectRoot)].  In a fused section every action
    is a section object and gives its [content]; in a parser section the
    [actions], when present, are strings: an empty one is skipped, any other
    has no [content] and gives [['']]. *)
Definition formatSection (section : merged_section)
    (projectRoot : option string) : string :=
  match section with
  | Fused body acts =>
      formatResponse body (map (fun a => Some (content a)) acts) projectRoot
  | Passed s =>
      match type s with
      | user_prompt =>
          let promptText := joinLines (content s) in
          let formattedText :=
            Transformers.compose
              [formatContextReferences; Transformers.forceLineBreaks]
              promptText in
          joinLines [USER_PROMPT; VISUAL_USER_PROMPT; ""; formattedText; ""; ""]
      | agent_response =>
          formatResponse (content s)
            match actions s with
            | Some lines =>
                map (fun line => if String.eqb line "" then None
                                 else Some [""]) lines
            | None => []
            end
            projectRoot
      | agent_action =>
          joinLines [AGENT_ACTION; VISUAL_AGENT_ACTION; "";
                     formatActions decodeURIComponent (content s) projectRoot;
                     ""; VISUAL_AGENT_ACTION_END; ""; ""]
      | unknown => (raw s ++ nl ++ nl)%string
      end
  end.

End Rendering.

End Formatters.

(* ------------------------------------------------------------------------- *)
(** * Idempotence check and [processContent] ([format-chat-session.js]) *)
(* ------------------------------------------------------------------------- *)

Module Main.

(** [MARKERS.PROCESSED] *)
Definition PROCESSED : string := "<!-- formatted-chat-session -->".

Definition isAlreadyProcessed (content : string) : bool :=
  includes content PROCESSED.

(** What follows the first occurrence of [p] in [s], if there is one. *)
Fixpoint afterFirst (p s : string) : option string :=
  if startsWith s p then Some (drop (String.length p) s)
  else match s with
       | "" => None
       | String _ s' => afterFirst p s'
       end.

(** [content.replace(/^---[\s\S]*?---\n\n/, '')]: the pattern is anchored at
    the start of the input, and its lazy middle stops at the first [---]
    followed by two line feeds. *)
Definition stripFrontmatter (content : string) : string :=
  if startsWith content "---" then
    match afterFirst ("---" ++ nl ++ nl)%string (drop 3 content) with
    | Some rest => rest
    | None => content
    end
  else content.

(** [generateFrontmatter({ projectRoot, inputFile, processedDate })];
    [projectRoot || 'N/A'] takes [null] and [''] to ['N/A']. *)
Definition generateFrontmatter (projectRoot : option string)
    (inputFile processedDate : string) : string :=
  ("---" ++ nl ++
   "type: chat-session" ++ nl ++
   "projectRoot: " ++
     match projectRoot with
     | Some (String _ _ as root) => root
     | _ => "N/A"
     end ++ nl ++
   "sourceFile: " ++ inputFile ++ nl ++
   "processedDate: " ++ processedDate ++ nl ++
   "---" ++ nl ++
   PROCESSED ++ nl ++
   nl)%string.

(** [[a-zA-Z0-9_-]] *)
Definition isIdentifierChar (c : ascii) : bool :=
  let n := nat_of_ascii c in
  (Nat.leb 97 n && Nat.leb n 122) || (Nat.leb 65 n && Nat.leb n 90) ||
  isDigit c || Ascii.eqb c "_" || Ascii.eqb c "-".

(** [line.match(/^([a-zA-Z0-9_-]+):\s/)]: the captured identifier. *)
Definition identifierMatch (line : string) : option string :=
  let '(identifier, rest) := spanWhile isIdentifierChar line in
  match identifier, rest with
  | String _ _, String colon (String c _) =>
      if Ascii.eqb colon ":" && isSpace c then Some identifier else None
  | _, _ => None
  end.

(** The [for] loop of [extractUserIdentifier]; [lines] is [lines.slice(i)]. *)
Fixpoint findUserIdentifier (lines : list string) : option string :=
  match lines with
  | [] => None
  | l :: rest =>
      match identifierMatch (trim l) with
      | Some identifier =>
          if existsb (fun l' => startsWith (trim l') "GitHub Copilot:") rest
          then Some identifier
          else findUserIdentifier rest
      | None => findUserIdentifier rest
      end
  end.

Definition extractUserIdentifier (content : string) : option string :=
  findUserIdentifier (splitLines content).

(** How a call of [processContent] ends: [return <string>], [return null], or
    [process.exit(code)]. *)
Inductive outcome : Set :=
  | Returned (formatted : string)
  | ReturnedNull
  | Exited (code : nat).

Section ProcessContent.

(** What [processContent] takes from outside the repository:
    [decodeURIComponent] ([None] when it throws), [path.basename], and the
    clock read by [new Date().toISOString()]. *)
Variable decodeURIComponent : string -> option string.
Variable basename : string -> string.
Variable processedDate : string.

(** The text handed to the core after the idempotence check: with the marker and
    [force], the frontmatter replacement has been applied. *)
Definition coreInput (content : string) (force : bool) : string :=
  if isAlreadyProcessed content && force then stripFrontmatter content
  else content.

(** [processContent(content, { force, silent, inputFile })]; writes to the
    console are left out. *)
Definition processContent (content : string) (force silent : bool)
    (inputFile : string) : outcome :=
  if isAlreadyProcessed content && negb force then Returned content
  else
    let content := coreInput content force in
    let projectRoot :=
      Formatters.extractProjectRoot decodeURIComponent content in
    match extractUserIdentifier content with
    | None => if negb silent then Exited 1 else ReturnedNull
    | Some userIdentifier =>
        let sections := Segmenter.parseContent content userIdentifier in
        let sections := Modular.mergeSections sections in
        let frontmatter :=
          generateFrontmatter projectRoot (basename inputFile) processedDate in
        let formattedSections :=
          String.concat ""
            (map (fun section =>
                    Formatters.formatSection decodeURIComponent section
                                             projectRoot)
                 sections) in
        let formattedContent := (frontmatter ++ formattedSections)%string in
        Returned
          (Transformers.compose
             [Transformers.ensureMarkdownSpacing;
              Transformers.removeTrailingSpaces;
              Transformers.cleanExcessiveLineBreaks]
             formattedContent)
    end.

End ProcessContent.

End Main.

(* ------------------------------------------------------------------------- *)
(** * Vocabulary of the specification *)
(* ------------------------------------------------------------------------- *)

Module Spec.

(** ** Turns and user prompts *)

Definition isUserPrompt (s : section) : bool :=
  section_type_eqb (type s) user_prompt.

(** The number of ['user-prompt'] sections of a merger's output. *)
Definition userPrompts (merged : list merged_section) : nat :=
  length (filter (fun m => section_type_eqb (merged_type m) user_prompt) merged).

(** A user-turn opener whose captured payload matches no ignore pattern. *)
Definition isCountedOpener (userIdentifier line : string) : bool :=
  startsWith line (userIdentifier ++ ":")%string &&
  negb (Classifier.some Classifier.IGNORE_USER_PROMPTS
          (trim (replaceFirst (userIdentifier ++ ":")%string "" line))).

Definition countedOpeners (content userIdentifier : string) : nat :=
  length (filter (isCountedOpener userIdentifier) (splitLines content)).

(** ** Placeholders *)

(** The index written in a token [__ACTION_PLACEHOLDER_<digits>__]. *)
Definition placeholderIndex (s : string) : option nat :=
  if startsWith s "__ACTION_PLACEHOLDER_" then
    let '(digits, rest) := spanWhile isDigit (drop 21 s) in
    if String.eqb rest "__" then
      option_map Nat.of_uint (NilEmpty.uint_of_string digits)
    else None
  else None.

(** [s] is one of the tokens the mergers make: [placeholder n] for some [n]. *)
Definition isPlaceholder (s : string) : bool :=
  match placeholderIndex s with
  | Some n => String.eqb s (placeholder n)
  | None => false
  end.

(** No agent response of [sections] has a placeholder token as its text. *)
Definition noPlaceholderText (sections : list section) : Prop :=
  forall s, In s sections -> type s = agent_response ->
            isPlaceholder (joinContent s) = false.

(** The placeholder entries of [body] are exactly the tokens [0 .. n-1] for
    the [n] actions, each once, in increasing order. *)
Definition dense (body : list string) (acts : list section) : Prop :=
  filter isPlaceholder body = map placeholder (seq 0 (length acts)).

(** ** Fences *)

(** A fence marker, as the transforms see it. *)
Definition isFenceMarker (line : string) : bool :=
  startsWith (trim line) "```".

(** The fenced regions of a list of lines: for every opening marker that has
    a closing one, the lines strictly between the two.  [open] holds the lines
    of the region being read, if any. *)
Fixpoint regionsFrom (open : option (list string)) (lines : list string)
    : list (list string) :=
  match lines with
  | [] => []
  | line :: rest =>
      if isFenceMarker line then
        match open with
        | None => regionsFrom (Some []) rest
        | Some region => region :: regionsFrom None rest
        end
      else
        match open with
        | None => regionsFrom None rest
        | Some region => regionsFrom (Some (region ++ [line])) rest
        end
  end.

(** A region is being read. *)
Definition isOpen (open : option (list string)) : bool :=
  match open with Some _ => true | None => false end.

Definition fencedRegions (text : string) : list (list string) :=
  regionsFrom None (splitLines text).

(** A transform is fence safe when it leaves every fenced region as it was:
    the same regions, each with the same lines. *)
Definition FenceSafe (f : string -> string) : Prop :=
  forall text, fencedRegions (f text) = fencedRegions text.

(** ** Blank lines *)

Definition isBlank (line : string) : bool := String.eqb line "".

(** The lengths of the maximal runs of consecutive blank lines; [run] is the
    length of the run being read. *)
Fixpoint blankRunsFrom (run : nat) (lines : list string) : list nat :=
  match lines with
  | [] => match run with O => [] | _ => [run] end
  | line :: rest =>
      if isBlank line then blankRunsFrom (S run) rest
      else match run with
           | O => blankRunsFrom 0 rest
           | _ => run :: blankRunsFrom 0 rest
           end
  end.

Definition blankRuns (text : string) : list nat :=
  blankRunsFrom 0 (splitLines text).

(** ** Section lists on which the two mergers agree *)

Definition isKind (t : section_type) (s : section) : bool :=
  section_type_eqb (type s) t.

(** The sections of one turn come as agent response, action, agent response,
    action, ... and, once that stops, all of one kind. *)
Fixpoint alternates (turn : list section) : bool :=
  match turn with
  | [] => true
  | x :: rest =>
      match rest with
      | y :: rest' =>
          if isKind agent_response x && isKind agent_action y
          then alternates rest'
          else forallb (isKind (type x)) rest
      | [] => true
      end
  end.

(** The orphan sections before the first user prompt, and the turns: every
    user prompt with the sections that follow it up to the next user prompt. *)
Fixpoint splitTurns (sections : list section)
    : list section * list (section * list section) :=
  match sections with
  | [] => ([], [])
  | s :: rest =>
      let '(following, turns) := splitTurns rest in
      if isUserPrompt s then ([], (s, following) :: turns)
      else (s :: following, turns)
  end.

Definition orphans (sections : list section) : list section :=
  fst (splitTurns sections).

Definition turns (sections : list section) : list (section * list section) :=
  snd (splitTurns sections).

(** The sections of a turn that are not ['unknown']. *)
Definition known (turn : list section) : list section :=
  filter (fun s => negb (isKind unknown s)) turn.

(** A turn on which the mergers agree: if it has sections, one of them is
    not ['unknown'], and those alternate. *)
Definition turnAgrees (turn : list section) : bool :=
  match turn, known turn with
  | _ :: _, [] => false
  | _, _ => true
  end &&
  alternates (known turn).

(** No orphan before the first user prompt, and the mergers agree on every
    turn. *)
Definition wellTurned (sections : list section) : bool :=
  match orphans sections with [] => true | _ => false end &&
  forallb (fun turn => turnAgrees (snd turn)) (turns sections).

(** ** What each merger makes of a turn *)

(** The texts of the agent responses of a turn, and its tool actions, both in
    the order met. *)
Definition responseTexts (turn : list section) : list string :=
  map joinContent (filter (isKind agent_response) turn).

Definition toolActions (turn : list section) : list section :=
  filter (isKind agent_action) turn.

(** What [flushAgentContent] pushes for pending [texts] and [acts]. *)
Definition flushed (texts : list string) (acts : list section)
    : list merged_section :=
  fst (Modular.flushAgentContent [] (Modular.mkState None texts acts)).

Definition modularTurn (turn : list section) : list merged_section :=
  flushed (responseTexts turn) (toolActions turn).

(** What each merger pushes for a user prompt and the sections after it. *)
Definition legacyTurn (turn : section * list section) : list merged_section :=
  Passed (fst turn) :: Legacy.fuse (snd turn).

Definition modularTurnOf (turn : section * list section)
    : list merged_section :=
  Passed (fst turn) :: modularTurn (snd turn).

(** The body in the order met: every agent response as its text, the [k]-th
    tool action as placeholder [k]; [k] counts the actions met before. *)
Fixpoint bodyInOrder (k : nat) (turn : list section) : list string :=
  match turn with
  | [] => []
  | s :: rest =>
      match type s with
      | agent_response => joinContent s :: bodyInOrder k rest
      | agent_action => placeholder k :: bodyInOrder (S k) rest
      | _ => bodyInOrder k rest
      end
  end.

End Spec.

(* ------------------------------------------------------------------------- *)
(** * Sample sessions *)
(* ------------------------------------------------------------------------- *)

Module Examples.

Definition prompt (text : string) : section :=
  mkSection user_prompt [text] None text.

Definition response (text : string) : section :=
  mkSection agent_response [text] None text.

Definition action (line : string) : section :=
  mkSection agent_action [line] (Some [line]) line.

Definition preamble (text : string) : section :=
  mkSection unknown [text] None text.

(** Two agent openers in a row, then a tool action and its closing text. *)
Definition twoResponsesThenAction : string :=
  joinLines ["alice: hi";
             "GitHub Copilot: a";
             "GitHub Copilot: b";
             "Read [](file:///x)";
             "Done."].

(** A session that ends on a tool action. *)
Definition endsOnAction : string :=
  joinLines ["alice: hi";
             "GitHub Copilot: hello";
             "Read [](file:///a)"].

(** Some text before the first user turn. *)
Definition withPreamble : string :=
  joinLines ["preamble"; "alice: hi"; "GitHub Copilot: hello"].

(** An agent reply before the first user turn. *)
Definition withEarlyReply : string :=
  joinLines ["GitHub Copilot: early"; "alice: hi"; "GitHub Copilot: hello"].

(** A second user turn answered by a tool action at once. *)
Definition promptThenAction : string :=
  joinLines ["alice: hi";
             "GitHub Copilot: hello";
             "alice: next";
             "Read [](file:///a)";
             "Done."].

(** An agent reply whose text is a placeholder token, then a tool action. *)
Definition tokenAsText : string :=
  joinLines ["alice: hi";
             "GitHub Copilot: __ACTION_PLACEHOLDER_0__";
             "Read [](file:///a)";
             "Done."].

(** The session of Scenario A. *)
Definition scenarioA : string :=
  joinLines ["alice: hi";
             "GitHub Copilot: hello";
             "Read [](file:///home/u/p/proj/src/a.js)";
             "Done."].

(** A fenced block with three blank lines in it. *)
Definition fencedBlanks : string :=
  joinLines ["```"; "a"; ""; ""; ""; "b"; "```"].

(** A fenced line with one trailing space. *)
Definition fencedTrailingSpace : string :=
  joinLines ["```"; "a "; "```"].

(** A fenced block whose last line is not blank. *)
Definition fencedCode : string :=
  joinLines ["```"; "x"; "```"].

(** Three, and two, blank lines between two lines of text. *)
Definition threeBlankLines : string := joinLines ["a"; ""; ""; ""; "b"].
Definition twoBlankLines : string := joinLines ["a"; ""; ""; "b"].

(** A short raw session. *)
Definition rawSession : string :=
  joinLines ["alice: hi"; "GitHub Copilot: hello"].

(** The document the formatter writes for it: the generated frontmatter, then
    a rendered user turn and a rendered agent turn. *)
Definition formattedDocument : string :=
  (Main.generateFrontmatter None "stdin" "2025-11-13T14:00:00.000Z" ++
   joinLines ["<!-- user-prompt -->"; "## 👤 User Prompt"; ""; "hi"; "";
              "<!-- agent-response -->"; "## 🤖 Response"; ""; "hello"; "";
              ""])%string.

(** The same document with a raw exchange added at its end, to be formatted
    again. *)
Definition resumedDocument : string :=
  (formattedDocument ++
   joinLines ["alice: more"; "GitHub Copilot: sure"; ""])%string.

(** A session whose agent turn holds a fenced shell block: a comment line
    and a command with a trailing space. *)
Definition fencedSession : string :=
  joinLines ["alice: hi"; "GitHub Copilot: run this";
             "```bash"; "# build"; "make "; "```"].

End Examples.

(* ------------------------------------------------------------------------- *)
(** * The command line ([format-chat-session.js]) *)
(* ------------------------------------------------------------------------- *)

Module Cli.

(** How a run of the script ends: [process.stdout.write(text)] followed by
    [process.exit(0)]; the help text and [process.exit(0)]; a file written
    by [safeWriteFile] and the end of [main]; or [process.exit(code)]. *)
Inductive result : Set :=
  | Stdout (text : string)
  | Help
  | Saved (path text : string)
  | Exit (code : nat).

Section Script.

Variable decodeURIComponent : string -> option string.
Variable basename : string -> string.
Variable processedDate : string.

(** What is outside the script: the text [readStdin()] resolves to ([None]
    when it rejects), what [safeReadFile] returns ([None] when it throws),
    and whether [safeWriteFile] succeeds ([false] when it throws). *)
Variable stdin : option string.
Variable safeReadFile : string -> option string.
Variable safeWriteFile : string -> string -> bool.

(** [formatChatSession({ inputFile, outputFile, force })]; [outputFile] is
    [None] when it is [undefined]. *)
Definition formatChatSession (inputFile : string) (outputFile : option string)
    (force : bool) : result :=
  match safeReadFile inputFile with
  | None => Exit 1
  | Some content =>
      match Main.processContent decodeURIComponent basename processedDate
              content force false inputFile with
      | Main.Exited code => Exit code
      | Main.ReturnedNull | Main.Returned "" => Exit 1
      | Main.Returned formattedContent =>
          let output :=
            match outputFile with
            | Some (String _ _ as file) => file
            | _ => inputFile
            end in
          if safeWriteFile output formattedContent
          then Saved output formattedContent
          else Exit 1
      end
  end.

(** [main()]; [piped] is [isStdinPiped()] and [args] is
    [process.argv.slice(2)].  With no argument the script stops at the help
    text at the latest, so [args[0]] is read on a list that is not empty. *)
Definition main (piped : bool) (args : list string) : result :=
  let force := existsb (String.eqb "--force") args in
  if piped && Nat.eqb (length args) 0 then
    match stdin with
    | None => Exit 1
    | Some content =>
        match Main.processContent decodeURIComponent basename processedDate
                content force true "stdin" with
        | Main.Exited code => Exit code
        | Main.ReturnedNull | Main.Returned "" => Exit 1
        | Main.Returned formattedContent => Stdout formattedContent
        end
    end
  else if Nat.eqb (length args) 0 ||
          existsb (String.eqb "--help") args ||
          existsb (String.eqb "-h") args
  then Help
  else
    match args with
    | [] => Help
    | inputFile :: rest =>
        let outputFile := find (fun arg => negb (startsWith arg "--")) rest in
        formatChatSession inputFile outputFile force
    end.

End Script.

End Cli.

(* ------------------------------------------------------------------------- *)
(** * The trailing-space cleaner of the monolithic script *)
(* ------------------------------------------------------------------------- *)

Module LegacyTransforms.

(** The [for] loop of the monolithic [removeTrailingSpaces] from line [i]
    on: [lines[i]] is overwritten in place, and [lines[i + 1]] is read
    before its own turn, so as it was in the input. *)
Fixpoint trailingFrom (lines : list string) : list string :=
  match lines with
  | [] => []
  | line :: rest =>
      (if negb (endsWithSpace line) then line
       else
         let nextLine := match rest with [] => "" | n :: _ => n end in
         let nextTrimmed := trim nextLine in
         if endsWithSpace line && negb (endsWithTwoSpaces line)
         then trimEnd line
         else if endsWithTwoSpaces line && String.eqb nextTrimmed ""
         then trimEnd line
         else line)
      :: trailingFrom rest
  end.

Definition removeTrailingSpaces (text : string) : string :=
  joinLines (trailingFrom (splitLines text)).

End LegacyTransforms.

(* ------------------------------------------------------------------------- *)
(** * Further vocabulary *)
(* ------------------------------------------------------------------------- *)

Module Further.

Import Spec.

(** ** Sections of the segmenter *)

(** A line the segmenter skips as noise. *)
Definition isNoise (line : string) : bool :=
  Classifier.some Classifier.NOISE_PATTERNS (trim line).

(** A section as the segmenter closes it: some content, and [raw] the content
    joined by line feeds. *)
Definition closedSection (s : section) : Prop :=
  content s <> [] /\ raw s = joinLines (content s).

(** No section but the first is ['unknown']. *)
Definition unknownOnlyFirst (sections : list section) : Prop :=
  match sections with
  | [] => True
  | _ :: rest => Forall (fun s => type s <> unknown) rest
  end.

(** While the segmenter is in an action sequence, the open section is an
    ['agent-action'] one that has at least one action line. *)
Definition actionOpen (st : Segmenter.parser_state) : Prop :=
  Segmenter.inAction st = false \/
  (type (Segmenter.currentSection st) = agent_action /\
   exists a acts, actions (Segmenter.currentSection st) = Some (a :: acts)).

(** The number of user-prompt sections of a section list. *)
Definition promptCount (sections : list section) : nat :=
  length (filter isUserPrompt sections).

(** One for a user-prompt section, zero for any other. *)
Definition promptWeight (s : section) : nat :=
  if isUserPrompt s then 1 else 0.

(** The state of the segmenter after the lines of [content]. *)
Definition finalState (content userIdentifier : string)
    : Segmenter.parser_state :=
  fold_left (Segmenter.step userIdentifier) (splitLines content)
            Segmenter.initial.

(** ** Merged lists *)

(** The user prompts a merger passed on, in order. *)
Definition passedPrompts (merged : list merged_section) : list section :=
  flat_map (fun m => match m with
                     | Passed s => if isUserPrompt s then [s] else []
                     | Fused _ _ => []
                     end) merged.

(** The actions of the fused sections, in order. *)
Definition fusedActionsOf (merged : list merged_section) : list section :=
  flat_map (fun m => match m with
                     | Passed _ => []
                     | Fused _ acts => acts
                     end) merged.

(** The body entries of the fused sections that are not placeholder tokens,
    in order. *)
Definition fusedTextsOf (merged : list merged_section) : list string :=
  flat_map (fun m => match m with
                     | Passed _ => []
                     | Fused body _ =>
                         filter (fun entry => negb (isPlaceholder entry)) body
                     end) merged.

(** A user prompt passed on, or a fused response with some body. *)
Definition promptOrFused (m : merged_section) : Prop :=
  match m with
  | Passed s => type s = user_prompt
  | Fused body _ => body <> []
  end.

(** Texts and tokens taken in turn, a text first, until one list runs out;
    then what is left of the other. *)
Fixpoint alternate (texts tokens : list string) : list string :=
  match texts with
  | [] => tokens
  | text :: texts' =>
      match tokens with
      | [] => texts
      | token :: tokens' => text :: token :: alternate texts' tokens'
      end
  end.

(** The tokens [0 .. n-1]. *)
Definition tokens (n : nat) : list string := map placeholder (seq 0 n).

(** What the modular merger makes of the sections of one turn. *)
Definition alternatingTurn (turn : list section) : list merged_section :=
  match responseTexts turn, toolActions turn with
  | [], [] => []
  | texts, acts => [Fused (alternate texts (tokens (length acts))) acts]
  end.

(** What the legacy merger makes of the sections of one turn. *)
Definition orderedTurn (turn : list section) : list merged_section :=
  match turn with
  | [] => []
  | _ => [Fused (bodyInOrder 0 turn) (toolActions turn)]
  end.

(** ** Groups of sections *)

(** The groups of sections a merger can fuse: the sections before the first
    user prompt, and the sections of every turn. *)
Definition groups (sections : list section) : list (list section) :=
  orphans sections :: map snd (turns sections).

(** ** White space beyond ASCII *)

(** The UTF-8 bytes of the characters that JavaScript takes as white space
    or as line terminators and that are not ASCII: U+00A0, U+1680, U+2000 to
    U+200A, U+2028, U+2029, U+202F, U+205F, U+3000 and U+FEFF. *)
Definition wideSpaces : list string :=
  [String "194" (String "160" "");
   String "225" (String "154" (String "128" ""));
   String "226" (String "128" (String "128" ""));
   String "226" (String "128" (String "129" ""));
   String "226" (String "128" (String "130" ""));
   String "226" (String "128" (String "131" ""));
   String "226" (String "128" (String "132" ""));
   String "226" (String "128" (String "133" ""));
   String "226" (String "128" (String "134" ""));
   String "226" (String "128" (String "135" ""));
   String "226" (String "128" (String "136" ""));
   String "226" (String "128" (String "137" ""));
   String "226" (String "128" (String "138" ""));
   String "226" (String "128" (String "168" ""));
   String "226" (String "128" (String "169" ""));
   String "226" (String "128" (String "175" ""));
   String "226" (String "129" (String "159" ""));
   String "227" (String "128" (String "128" ""));
   String "239" (String "187" (String "191" ""))].

(** [text] holds none of them: all its white space and all its line
    terminators are ASCII, so that [isSpace], [trim] and [isDot] are on it
    what [\s], [String.prototype.trim] and [.] are in the source. *)
Definition plainSpaced (text : string) : bool :=
  forallb (fun wide => negb (includes text wide)) wideSpaces.

(** ** Texts and lines *)

(** Three line feeds in a row: what [/\n{3,}/] looks for. *)
Definition tripleFeed : string := String LF (String LF (String LF "")).

(** No run of line feeds of [text] is longer than two; [run] counts the
    line feeds just before [text]. *)
Fixpoint runsAtMostTwo (run : nat) (text : string) : bool :=
  match text with
  | "" => true
  | String c text' =>
      if Ascii.eqb c LF then Nat.leb (S run) 2 && runsAtMostTwo (S run) text'
      else runsAtMostTwo 0 text'
  end.

(** [text] without its line feeds. *)
Fixpoint withoutLineFeeds (text : string) : string :=
  match text with
  | "" => ""
  | String c text' =>
      if Ascii.eqb c LF then withoutLineFeeds text'
      else String c (withoutLineFeeds text')
  end.

(** [lines[i + 1]], or [''] after the last line. *)
Definition nextOf (rest : list string) : string :=
  match rest with [] => "" | n :: _ => n end.

(** No line is left with a trailing space that is not a hard break: a line
    ends without a space, or with two spaces and before a line that is not
    blank. *)
Fixpoint trailingSpacesClean (lines : list string) : bool :=
  match lines with
  | [] => true
  | line :: rest =>
      (negb (endsWithSpace line) ||
       endsWithTwoSpaces line && negb (String.eqb (trim (nextOf rest)) "")) &&
      trailingSpacesClean rest
  end.

(** Every heading line is the last line or has a blank line after it. *)
Fixpoint headingsSpaced (lines : list string) : bool :=
  match lines with
  | [] => true
  | line :: rest =>
      (negb (Transformers.isHeadingLine (trim line)) ||
       String.eqb (trim (nextOf rest)) "") &&
      headingsSpaced rest
  end.

(** Every unit of [s] satisfies [p]. *)
Fixpoint allChars (p : ascii -> bool) (s : string) : bool :=
  match s with
  | "" => true
  | String c s' => p c && allChars p s'
  end.

(** A line that opens an agent turn, as [extractUserIdentifier] looks for
    it. *)
Definition isAgentLine (line : string) : bool :=
  startsWith (trim line) "GitHub Copilot:".

(** The lines that are not empty. *)
Definition nonEmptyLines (lines : list string) : list string :=
  filter (fun line => negb (String.eqb line "")) lines.

End Further.

(* ------------------------------------------------------------------------- *)
(** * Properties of the segmenter *)
(* ------------------------------------------------------------------------- *)

Module SegmenterFacts.

Import Segmenter Examples.

(** Scenario A of the specification, through the segmenter. *)
Lemma scenarioA_sections :
  parseContent scenarioA "alice" =
  [prompt "hi"; response "hello";
   action "Read [](file:///home/u/p/proj/src/a.js)"; response "Done."].
Proof. vm_compute. reflexivity. Qed.

Lemma step_actionsPresent uid st line :
  actionsPresent st -> actionsPresent (step uid st line).
Proof.
  unfold actionsPresent, step. intros H.
  repeat match goal with
         | |- context [if ?b then _ else _] => destruct b eqn:?
         end; simpl in *; try assumption; try discriminate;
    unfold pushAction;
    try (destruct (actions (currentSection st)) eqn:E; simpl; intros;
         try rewrite E; try discriminate; auto).
Qed.

Lemma inAction_actions uid lines :
  actionsPresent (fold_left (step uid) lines initial).
Proof.
  assert (G : forall st, actionsPresent st ->
                         actionsPresent (fold_left (step uid) lines st)).
  { induction lines as [|l ls IH]; simpl; intros st H; [assumption|].
    apply IH, step_actionsPresent, H. }
  apply G. unfold actionsPresent; simpl; discriminate.
Qed.

(** C3, at a session that ends on a tool action: when the input ends the
    segmenter is in the in-tool-action state with one accumulated action
    line, and the section list it returns stops at the agent response before
    it; the tool-action section is not emitted. *)
Theorem C3_trailing_action_dropped :
  let final := fold_left (step "alice") (splitLines endsOnAction) initial in
  inAction final = true /\
  actions (currentSection final) = Some ["Read [](file:///a)"] /\
  parseContent endsOnAction "alice" = [prompt "hi"; response "hello"].
Proof. vm_compute. repeat split. Qed.

(** C6, at a session whose second user turn is answered by a tool action at
    once: the user identifier is detected, the input has two user-turn
    openers that match no ignore pattern, and the merged output of its
    segmentation has one user-prompt section only: the second prompt is
    overwritten when the action sequence opens. *)
Theorem C6_prompt_before_action_lost :
  Main.extractUserIdentifier promptThenAction = Some "alice" /\
  Spec.countedOpeners promptThenAction "alice" = 2 /\
  parseContent promptThenAction "alice" =
    [prompt "hi"; response "hello"; action "Read [](file:///a)";
     response "Done."] /\
  Spec.userPrompts
    (Modular.mergeSections (parseContent promptThenAction "alice")) = 1.
Proof. vm_compute. repeat split. Qed.

End SegmenterFacts.

(* ------------------------------------------------------------------------- *)
(** * Properties of the mergers *)
(* ------------------------------------------------------------------------- *)

Module MergerFacts.

Import Spec Examples.

Lemma section_type_eqb_eq a b : section_type_eqb a b = true <-> a = b.
Proof. destruct a, b; simpl; split; congruence. Qed.

Lemma section_type_eqb_refl a : section_type_eqb a a = true.
Proof. now destruct a. Qed.

(** ** The legacy merger, turn by turn *)

(** The inner loop stops on the next user prompt: what it collects is the
    orphan prefix of the slice, and the turns of what is left are its turns. *)
Lemma collectAgent_splitTurns rest :
  let '(agentContent, rest') := Legacy.collectAgent rest in
  orphans rest = agentContent /\
  turns rest = turns rest' /\
  orphans rest' = [] /\
  length rest' <= length rest.
Proof.
  unfold orphans, turns.
  induction rest as [|s rest IH]; simpl.
  - repeat split; auto.
  - unfold isUserPrompt.
    destruct (section_type_eqb (type s) user_prompt) eqn:E.
    + simpl. unfold isUserPrompt. rewrite E.
      destruct (splitTurns rest) as [following ts]; simpl.
      repeat split; auto.
    + destruct (Legacy.collectAgent rest) as [agentContent rest'].
      destruct (splitTurns rest) as [following ts]; simpl in *.
      destruct IH as (H1 & H2 & H3 & H4).
      repeat split; auto; congruence.
Qed.

(** The outer loop, with fuel for every section still to read, pushes the
    orphans as they are and then every turn. *)
Lemma mergeLoop_turns fuel : forall rest merged,
  length rest <= fuel ->
  Legacy.mergeLoop fuel rest merged =
  merged ++ map Passed (orphans rest) ++ flat_map legacyTurn (turns rest).
Proof.
  induction fuel as [|fuel IH]; intros rest merged Hlen.
  - destruct rest; simpl in *; [|lia]. now rewrite app_nil_r.
  - destruct rest as [|s rest]; simpl.
    + now rewrite app_nil_r.
    + unfold orphans, turns; simpl. unfold isUserPrompt.
      pose proof (collectAgent_splitTurns rest) as Hc.
      destruct (section_type_eqb (type s) user_prompt) eqn:E.
      * destruct (Legacy.collectAgent rest) as [agentContent rest'].
        destruct Hc as (H1 & H2 & H3 & H4).
        simpl in Hlen.
        rewrite IH by lia.
        rewrite H3. unfold orphans, turns in *.
        destruct (splitTurns rest) as [following ts]; simpl in *.
        subst. unfold legacyTurn at 2; simpl.
        rewrite <- !app_assoc. reflexivity.
      * simpl in Hlen. rewrite IH by lia.
        unfold orphans, turns.
        destruct (splitTurns rest) as [following ts]; simpl.
        rewrite <- !app_assoc. reflexivity.
Qed.

(** The fuel [mergeSections] gives the loop is enough: more changes nothing. *)
Lemma mergeLoop_fuel fuel sections :
  length sections <= fuel ->
  Legacy.mergeLoop fuel sections [] = Legacy.mergeSections sections.
Proof.
  intros H. unfold Legacy.mergeSections.
  rewrite !mergeLoop_turns by lia. reflexivity.
Qed.

Lemma legacy_mergeSections_turns sections :
  Legacy.mergeSections sections =
  map Passed (orphans sections) ++ flat_map legacyTurn (turns sections).
Proof.
  unfold Legacy.mergeSections. now rewrite mergeLoop_turns by lia.
Qed.

(** ** The modular merger, turn by turn *)

Lemma flushAgentContent_fst merged st :
  fst (Modular.flushAgentContent merged st) =
  merged ++ flushed (Modular.agentContent st) (Modular.agentActions st).
Proof.
  unfold flushed, Modular.flushAgentContent; simpl.
  destruct (Modular.agentContent st) as [|c cs],
           (Modular.agentActions st) as [|a acts];
    try (now rewrite app_nil_r);
    match goal with
    | |- context [Modular.flushLoop ?x ?y ?z ?w] =>
        destruct (Modular.flushLoop x y z w)
    end; reflexivity.
Qed.

Lemma flushAgentContent_snd merged st :
  Modular.agentContent (snd (Modular.flushAgentContent merged st)) = [] /\
  Modular.agentActions (snd (Modular.flushAgentContent merged st)) = [].
Proof.
  unfold Modular.flushAgentContent.
  destruct (Modular.agentContent st) as [|c cs] eqn:Ec,
           (Modular.agentActions st) as [|a acts] eqn:Ea;
    try (simpl; auto; fail);
    match goal with
    | |- context [Modular.flushLoop ?x ?y ?z ?w] =>
        destruct (Modular.flushLoop x y z w)
    end; simpl; auto.
Qed.

Lemma responseTexts_cons s turn :
  responseTexts (s :: turn) =
  match type s with
  | agent_response => joinContent s :: responseTexts turn
  | _ => responseTexts turn
  end.
Proof. unfold responseTexts, isKind; simpl. now destruct (type s). Qed.

Lemma toolActions_cons s turn :
  toolActions (s :: turn) =
  match type s with
  | agent_action => s :: toolActions turn
  | _ => toolActions turn
  end.
Proof. unfold toolActions, isKind; simpl. now destruct (type s). Qed.

Lemma splitTurns_cons s rest :
  splitTurns (s :: rest) =
  if isUserPrompt s then ([], (s, orphans rest) :: turns rest)
  else (s :: orphans rest, turns rest).
Proof.
  unfold orphans, turns; simpl. now destruct (splitTurns rest).
Qed.

(** The loop of the modular merger, started with pending texts and actions,
    followed by the last flush: the orphans join what is pending, and every
    user prompt is followed by what its turn flushes to. *)
Lemma modular_fold_turns : forall rest merged st,
  let r := fold_left Modular.mergeStep rest (merged, st) in
  fst (Modular.flushAgentContent (fst r) (snd r)) =
  merged ++
  flushed (Modular.agentContent st ++ responseTexts (orphans rest))
          (Modular.agentActions st ++ toolActions (orphans rest)) ++
  flat_map modularTurnOf (turns rest).
Proof.
  induction rest as [|s rest IH]; intros merged st; cbn zeta.
  - cbn [fold_left fst snd]. rewrite flushAgentContent_fst.
    unfold orphans, turns; simpl. now rewrite !app_nil_r.
  - cbn [fold_left].
    unfold orphans at 1 2, turns at 1. rewrite splitTurns_cons.
    unfold isUserPrompt.
    destruct (type s) eqn:Et; cbn [section_type_eqb fst snd].
    + (* unknown *)
      assert (Modular.mergeStep (merged, st) s = (merged, st)) as ->
        by (unfold Modular.mergeStep; now rewrite Et).
      specialize (IH merged st). cbn zeta in IH. rewrite IH.
      rewrite responseTexts_cons, toolActions_cons, Et. reflexivity.
    + (* user prompt *)
      assert (Modular.mergeStep (merged, st) s =
              (fst (Modular.flushAgentContent merged st) ++ [Passed s],
               Modular.mkState (Some s) [] [])) as ->.
      { unfold Modular.mergeStep. rewrite Et.
        pose proof (flushAgentContent_snd merged st) as [Hc Ha].
        destruct (Modular.flushAgentContent merged st) as [m1 st1].
        simpl in *. now rewrite Hc, Ha. }
      specialize (IH (fst (Modular.flushAgentContent merged st) ++ [Passed s])
                     (Modular.mkState (Some s) [] [])).
      cbn zeta in IH. rewrite IH. rewrite flushAgentContent_fst.
      cbn [Modular.agentContent Modular.agentActions app flat_map].
      unfold modularTurnOf at 2, modularTurn. cbn [fst snd].
      unfold responseTexts at 2, toolActions at 2. cbn [filter map].
      rewrite !app_nil_r, <- !app_assoc. reflexivity.
    + (* agent response *)
      assert (Modular.mergeStep (merged, st) s =
              (merged,
               Modular.mkState (Modular.currentPrompt st)
                 (Modular.agentContent st ++ [joinContent s])
                 (Modular.agentActions st))) as ->
        by (unfold Modular.mergeStep; now rewrite Et).
      match goal with
      | |- context [fold_left _ rest (merged, ?st')] =>
          specialize (IH merged st')
      end.
      cbn zeta in IH. rewrite IH.
      cbn [Modular.agentContent Modular.agentActions].
      rewrite responseTexts_cons, toolActions_cons, Et.
      rewrite <- !app_assoc. reflexivity.
    + (* agent action *)
      assert (Modular.mergeStep (merged, st) s =
              (merged,
               Modular.mkState (Modular.currentPrompt st)
                 (Modular.agentContent st)
                 (Modular.agentActions st ++ [s]))) as ->
        by (unfold Modular.mergeStep; now rewrite Et).
      match goal with
      | |- context [fold_left _ rest (merged, ?st')] =>
          specialize (IH merged st')
      end.
      cbn zeta in IH. rewrite IH.
      cbn [Modular.agentContent Modular.agentActions].
      rewrite responseTexts_cons, toolActions_cons, Et.
      rewrite <- !app_assoc. reflexivity.
Qed.

Lemma modular_mergeSections_turns sections :
  Modular.mergeSections sections =
  modularTurn (orphans sections) ++ flat_map modularTurnOf (turns sections).
Proof.
  unfold Modular.mergeSections.
  pose proof (modular_fold_turns sections [] (Modular.mkState None [] [])) as H.
  cbn zeta in H.
  destruct (fold_left Modular.mergeStep sections
              ([], Modular.mkState None [] [])) as [merged state].
  exact H.
Qed.

(** ** Placeholder tokens *)

Lemma startsWith_app p x : startsWith (p ++ x) p = true.
Proof.
  unfold startsWith. induction p as [|c p IH]; simpl.
  - now destruct x.
  - destruct (ascii_dec c c) as [_|Hne]; [exact IH | now elim Hne].
Qed.

Lemma drop_app p x : drop (String.length p) (p ++ x) = x.
Proof. induction p as [|c p IH]; simpl; [now destruct x | exact IH]. Qed.

Lemma spanWhile_digits d rest :
  (forall c rest', rest = String c rest' -> isDigit c = false) ->
  spanWhile isDigit (NilEmpty.string_of_uint d ++ rest) =
  (NilEmpty.string_of_uint d, rest).
Proof.
  intros Hrest.
  induction d; simpl; try (rewrite IHd; reflexivity).
  destruct rest as [|c rest']; [reflexivity|].
  simpl. now rewrite (Hrest c rest' eq_refl).
Qed.

Lemma placeholderIndex_placeholder n : placeholderIndex (placeholder n) = Some n.
Proof.
  unfold placeholderIndex, placeholder, ofNat.
  rewrite startsWith_app.
  change 21 with (String.length "__ACTION_PLACEHOLDER_"). rewrite drop_app.
  rewrite spanWhile_digits.
  - rewrite String.eqb_refl, NilEmpty.usu. simpl. now rewrite Unsigned.of_to.
  - intros c rest' [= <- _]. reflexivity.
Qed.

Lemma isPlaceholder_iff s : isPlaceholder s = true <-> exists n, s = placeholder n.
Proof.
  unfold isPlaceholder. split.
  - destruct (placeholderIndex s) as [n|]; [|discriminate].
    intros H. exists n. now apply String.eqb_eq.
  - intros [n ->]. rewrite placeholderIndex_placeholder. apply String.eqb_refl.
Qed.

Lemma isPlaceholder_placeholder n : isPlaceholder (placeholder n) = true.
Proof. apply isPlaceholder_iff. now exists n. Qed.

Lemma placeholder_inj m n : placeholder m = placeholder n -> m = n.
Proof.
  intros H.
  assert (Some m = Some n) as [= ->]
    by (rewrite <- !placeholderIndex_placeholder; now rewrite H).
  reflexivity.
Qed.

Lemma filter_placeholders k n :
  filter isPlaceholder (map placeholder (seq k n)) = map placeholder (seq k n).
Proof.
  revert k. induction n as [|n IH]; intros k; simpl; [reflexivity|].
  now rewrite isPlaceholder_placeholder, IH.
Qed.

(** ** What a flush makes of its pending lists *)

Lemma flushActions_eq acts : forall fc fa,
  Modular.flushActions acts fc fa =
  (fc ++ map placeholder (seq (length fa) (length acts)), fa ++ acts).
Proof.
  induction acts as [|a acts IH]; intros fc fa; simpl.
  - now rewrite !app_nil_r.
  - rewrite IH, length_app. simpl.
    rewrite Nat.add_1_r, <- !app_assoc. reflexivity.
Qed.

Lemma flushLoop_texts cs : forall fc fa,
  Modular.flushLoop cs [] fc fa = (fc ++ cs, fa).
Proof.
  induction cs as [|c cs IH]; intros fc fa; simpl.
  - now rewrite app_nil_r.
  - rewrite IH, <- app_assoc. reflexivity.
Qed.

Lemma flushLoop_actions cs : forall acts fc fa,
  snd (Modular.flushLoop cs acts fc fa) = fa ++ acts.
Proof.
  induction cs as [|c cs IH]; intros acts fc fa; simpl.
  - now rewrite flushActions_eq.
  - destruct acts as [|a acts].
    + rewrite flushLoop_texts. simpl. now rewrite app_nil_r.
    + rewrite IH, <- app_assoc. reflexivity.
Qed.

Lemma dense_step fc fa a :
  dense fc fa -> dense (fc ++ [placeholder (length fa)]) (fa ++ [a]).
Proof.
  unfold dense. intros H.
  rewrite filter_app, H, length_app, Nat.add_1_r, seq_S, map_app. simpl.
  now rewrite isPlaceholder_placeholder.
Qed.

Lemma dense_text fc fa c :
  isPlaceholder c = false -> dense fc fa -> dense (fc ++ [c]) fa.
Proof.
  unfold dense. intros Hc H.
  rewrite filter_app, H. simpl. rewrite Hc. now rewrite app_nil_r.
Qed.

Lemma flushActions_dense acts : forall fc fa,
  dense fc fa ->
  dense (fst (Modular.flushActions acts fc fa))
        (snd (Modular.flushActions acts fc fa)).
Proof.
  induction acts as [|a acts IH]; intros fc fa H; simpl; [exact H|].
  apply IH, dense_step, H.
Qed.

(** A flush keeps the body dense when no pending text is a token. *)
Lemma flushLoop_dense cs : forall acts fc fa,
  Forall (fun c => isPlaceholder c = false) cs ->
  dense fc fa ->
  dense (fst (Modular.flushLoop cs acts fc fa))
        (snd (Modular.flushLoop cs acts fc fa)).
Proof.
  induction cs as [|c cs IH]; intros acts fc fa Hcs H; simpl.
  - apply flushActions_dense, H.
  - inversion Hcs as [|? ? Hc Hcs']; subst.
    destruct acts as [|a acts].
    + apply IH; [assumption|]. now apply dense_text.
    + apply IH; [assumption|]. apply dense_step. now apply dense_text.
Qed.

(** The legacy loop over a turn writes the body in the order met. *)
Lemma fuse_fold turn : forall fc fa,
  fold_left Legacy.fuseStep turn (fc, fa) =
  (fc ++ bodyInOrder (length fa) turn, fa ++ toolActions turn).
Proof.
  induction turn as [|s turn IH]; intros fc fa.
  - simpl. now rewrite !app_nil_r.
  - cbn [fold_left bodyInOrder]. rewrite toolActions_cons.
    unfold Legacy.fuseStep at 2.
    destruct (type s); rewrite IH; try reflexivity.
    + now rewrite <- app_assoc.
    + rewrite length_app, Nat.add_1_r, <- !app_assoc. reflexivity.
Qed.

Lemma legacy_fuse_eq turn :
  Legacy.fuse turn =
  match turn with
  | [] => []
  | _ => [Fused (bodyInOrder 0 turn) (toolActions turn)]
  end.
Proof.
  unfold Legacy.fuse. destruct turn as [|s turn]; [reflexivity|].
  now rewrite fuse_fold.
Qed.

Lemma bodyInOrder_dense turn : forall fc fa,
  Forall (fun s => type s = agent_response ->
                   isPlaceholder (joinContent s) = false) turn ->
  dense fc fa ->
  dense (fc ++ bodyInOrder (length fa) turn) (fa ++ toolActions turn).
Proof.
  induction turn as [|s turn IH]; intros fc fa Hturn H.
  - simpl. now rewrite !app_nil_r.
  - inversion Hturn as [|? ? Hs Hturn']; subst.
    cbn [bodyInOrder]. rewrite toolActions_cons.
    destruct (type s) eqn:Et; try (now apply IH).
    + change (joinContent s :: bodyInOrder (length fa) turn)
        with ([joinContent s] ++ bodyInOrder (length fa) turn).
      rewrite app_assoc. apply IH; [assumption|].
      apply dense_text; auto.
    + change (placeholder (length fa) :: bodyInOrder (S (length fa)) turn)
        with ([placeholder (length fa)] ++ bodyInOrder (S (length fa)) turn).
      change (s :: toolActions turn) with ([s] ++ toolActions turn).
      rewrite !app_assoc.
      replace (S (length fa)) with (length (fa ++ [s]))
        by (rewrite length_app; simpl; lia).
      apply IH; [assumption|]. now apply dense_step.
Qed.

(** ** Turns are made of the sections of the input *)

Lemma isKind_type t s : isKind t s = true <-> type s = t.
Proof. unfold isKind. apply section_type_eqb_eq. Qed.

Lemma splitTurns_In sections :
  (forall s, In s (orphans sections) ->
             In s sections /\ isUserPrompt s = false) /\
  (forall turn, In turn (turns sections) ->
     In (fst turn) sections /\
     forall s, In s (snd turn) -> In s sections /\ isUserPrompt s = false).
Proof.
  induction sections as [|x sections [IHo IHt]].
  - split; simpl; intros ? [].
  - unfold orphans, turns. rewrite splitTurns_cons.
    destruct (isUserPrompt x) eqn:Ex; cbn [fst snd]; split.
    + intros ? [].
    + intros turn [<-|Hin]; cbn [fst snd].
      * split; [now left|]. intros s Hs.
        destruct (IHo s Hs). split; [now right | assumption].
      * destruct (IHt turn Hin) as [Hp Hs]. split; [now right|].
        intros s Hin'. destruct (Hs s Hin'). split; [now right | assumption].
    + intros s [<-|Hin]; [split; [now left | assumption]|].
      destruct (IHo s Hin). split; [now right | assumption].
    + intros turn Hin. destruct (IHt turn Hin) as [Hp Hs].
      split; [now right|].
      intros s Hin'. destruct (Hs s Hin'). split; [now right | assumption].
Qed.

(** The orphans and the turns, put end to end, are the section list. *)
Lemma splitTurns_sections sections :
  sections =
  orphans sections ++ flat_map (fun turn => fst turn :: snd turn) (turns sections).
Proof.
  induction sections as [|s sections IH]; [reflexivity|].
  unfold orphans, turns. rewrite splitTurns_cons.
  destruct (isUserPrompt s); cbn [fst snd flat_map app]; now rewrite <- IH.
Qed.

(** Every turn is a run of consecutive sections of the list. *)
Lemma turn_in_sections sections turn :
  In turn (turns sections) ->
  exists before after, sections = before ++ snd turn ++ after.
Proof.
  intros Hin. apply in_split in Hin. destruct Hin as (l1 & l2 & Hsplit).
  pose proof (splitTurns_sections sections) as Hs.
  rewrite Hsplit, flat_map_app in Hs. cbn [flat_map] in Hs.
  exists (orphans sections ++
          flat_map (fun turn => fst turn :: snd turn) l1 ++ [fst turn]).
  exists (flat_map (fun turn => fst turn :: snd turn) l2).
  rewrite Hs at 1. rewrite <- !app_assoc. reflexivity.
Qed.

Lemma orphans_in_sections sections :
  exists before after, sections = before ++ orphans sections ++ after.
Proof.
  exists [], (flat_map (fun turn => fst turn :: snd turn) (turns sections)).
  apply splitTurns_sections.
Qed.

Lemma responseTexts_not_placeholder turn :
  Forall (fun s => type s = agent_response ->
                   isPlaceholder (joinContent s) = false) turn ->
  Forall (fun c => isPlaceholder c = false) (responseTexts turn).
Proof.
  induction 1 as [|s turn Hs _ IH]; [constructor|].
  rewrite responseTexts_cons.
  destruct (type s) eqn:Et; auto.
Qed.

Lemma flushed_eq texts acts :
  flushed texts acts =
  match texts, acts with
  | [], [] => []
  | _, _ => [Fused (fst (Modular.flushLoop texts acts [] []))
                   (snd (Modular.flushLoop texts acts [] []))]
  end.
Proof.
  unfold flushed, Modular.flushAgentContent.
  cbn [Modular.agentContent Modular.agentActions].
  destruct texts, acts; try reflexivity;
    match goal with
    | |- context [Modular.flushLoop ?x ?y ?z ?w] =>
        destruct (Modular.flushLoop x y z w)
    end; reflexivity.
Qed.

Lemma dense_nil : dense [] [].
Proof. reflexivity. Qed.

(** What the modular merger fuses for a turn is dense. *)
Lemma modularTurn_dense turn body acts :
  Forall (fun s => type s = agent_response ->
                   isPlaceholder (joinContent s) = false) turn ->
  In (Fused body acts) (modularTurn turn) ->
  dense body acts /\ acts = toolActions turn.
Proof.
  intros Hturn. unfold modularTurn. rewrite flushed_eq.
  pose proof (flushLoop_dense (toolActions turn)
                (responseTexts_not_placeholder Hturn) dense_nil) as Hd.
  pose proof (flushLoop_actions (responseTexts turn) (toolActions turn) [] [])
    as Ha.
  destruct (responseTexts turn), (toolActions turn);
    simpl In; intros H; try contradiction;
    destruct H as [H|[]]; injection H as <- <-; split; auto.
Qed.

(** What the legacy merger fuses for a turn is dense. *)
Lemma legacyFuse_dense turn body acts :
  Forall (fun s => type s = agent_response ->
                   isPlaceholder (joinContent s) = false) turn ->
  In (Fused body acts) (Legacy.fuse turn) ->
  dense body acts /\ acts = toolActions turn.
Proof.
  intros Hturn. rewrite legacy_fuse_eq.
  pose proof (bodyInOrder_dense Hturn dense_nil) as Hd.
  destruct turn; simpl In; intros H; try contradiction.
  destruct H as [H|[]]. injection H as <- <-. split; auto.
Qed.

(** ** User prompts through the merger *)

Lemma userPrompts_app a b : userPrompts (a ++ b) = userPrompts a + userPrompts b.
Proof. unfold userPrompts. now rewrite filter_app, length_app. Qed.

Lemma userPrompts_modularTurn turn : userPrompts (modularTurn turn) = 0.
Proof.
  unfold modularTurn. rewrite flushed_eq.
  destruct (responseTexts turn), (toolActions turn); reflexivity.
Qed.

(** The modular merger keeps every user prompt it is given, and makes none. *)
Lemma modular_userPrompts sections :
  userPrompts (Modular.mergeSections sections) =
  length (filter isUserPrompt sections).
Proof.
  rewrite modular_mergeSections_turns, userPrompts_app, userPrompts_modularTurn.
  cbn [Nat.add].
  induction sections as [|s sections IH]; [reflexivity|].
  unfold turns at 1. rewrite splitTurns_cons. cbn [filter].
  destruct (isUserPrompt s) eqn:Es; cbn [snd]; [|exact IH].
  cbn [flat_map]. unfold modularTurnOf at 1. cbn [fst snd length].
  change (Passed s :: modularTurn (orphans sections))
    with ([Passed s] ++ modularTurn (orphans sections)).
  rewrite !userPrompts_app, userPrompts_modularTurn, IH.
  unfold userPrompts at 1. cbn [filter merged_type].
  unfold isUserPrompt in Es. now rewrite Es.
Qed.

(** ** Order of the fused body *)

(** The legacy merger writes every fused body in the order met. *)
Lemma legacy_body_in_order sections turn :
  In turn (turns sections) -> snd turn <> [] ->
  In (Fused (bodyInOrder 0 (snd turn)) (toolActions (snd turn)))
     (Legacy.mergeSections sections).
Proof.
  intros Hin Hne. rewrite legacy_mergeSections_turns.
  apply in_or_app. right. apply in_flat_map. exists turn. split; [assumption|].
  unfold legacyTurn. right. rewrite legacy_fuse_eq.
  destruct (snd turn); [contradiction | now left].
Qed.

(** C1, at a session with two agent openers in a row before a tool action:
    the segments between the user prompts are met as response "a", response
    "b", tool action, response "Done.", and the modular merger
    ([mergeSections] with [flushAgentContent]) fuses them with the placeholder
    moved before "b"; the legacy merger keeps the order met. *)
Theorem C1_modular_merger_reorders :
  let sections := Segmenter.parseContent twoResponsesThenAction "alice" in
  sections =
    [prompt "hi"; response "a"; response "b"; action "Read [](file:///x)";
     response "Done."] /\
  Modular.mergeSections sections =
    [Passed (prompt "hi");
     Fused ["a"; placeholder 0; "b"; "Done."] [action "Read [](file:///x)"]] /\
  Legacy.mergeSections sections =
    [Passed (prompt "hi");
     Fused ["a"; "b"; placeholder 0; "Done."] [action "Read [](file:///x)"]].
Proof. vm_compute. repeat split. Qed.

(** Two tool actions and then a response: the
    modular merger puts the text first. *)
Lemma modular_two_actions_then_text :
  Modular.mergeSections
    [prompt "hi"; action "Read [](file:///a)"; action "Read [](file:///b)";
     response "text"] =
  [Passed (prompt "hi");
   Fused ["text"; placeholder 0; placeholder 1]
         [action "Read [](file:///a)"; action "Read [](file:///b)"]].
Proof. vm_compute. reflexivity. Qed.

(** ** Orphans *)

(** The legacy merger passes every orphan on as it is, before anything else. *)
Lemma legacy_orphans_passed sections :
  exists rest,
    Legacy.mergeSections sections = map Passed (orphans sections) ++ rest.
Proof.
  rewrite legacy_mergeSections_turns. eexists. reflexivity.
Qed.

(** C4, at a session with text before the first user turn, and at one with an
    agent reply before it: the modular merger drops the orphan ['unknown']
    section and fuses the orphan agent response into a synthetic one; the
    legacy merger passes both on as they are. *)
Theorem C4_modular_merger_orphans :
  Segmenter.parseContent withPreamble "alice" =
    [preamble "preamble"; prompt "hi"; response "hello"] /\
  Modular.mergeSections [preamble "preamble"; prompt "hi"; response "hello"] =
    [Passed (prompt "hi"); Fused ["hello"] []] /\
  Legacy.mergeSections [preamble "preamble"; prompt "hi"; response "hello"] =
    [Passed (preamble "preamble"); Passed (prompt "hi"); Fused ["hello"] []] /\
  Segmenter.parseContent withEarlyReply "alice" =
    [response "early"; prompt "hi"; response "hello"] /\
  Modular.mergeSections [response "early"; prompt "hi"; response "hello"] =
    [Fused ["early"] []; Passed (prompt "hi"); Fused ["hello"] []] /\
  Legacy.mergeSections [response "early"; prompt "hi"; response "hello"] =
    [Passed (response "early"); Passed (prompt "hi"); Fused ["hello"] []].
Proof. vm_compute. repeat split. Qed.

(** ** Placeholder density *)

(** C7 as stated fails when an agent text is itself a token: the fused body
    then holds placeholder 0 twice for a single action. *)
Lemma C7_token_text_counterexample :
  Modular.mergeSections (Segmenter.parseContent tokenAsText "alice") =
    [Passed (prompt "hi");
     Fused [placeholder 0; placeholder 0; "Done."]
           [action "Read [](file:///a)"]] /\
  count_occ string_dec [placeholder 0; placeholder 0; "Done."]
            (placeholder 0) = 2 /\
  ~ dense [placeholder 0; placeholder 0; "Done."]
          [action "Read [](file:///a)"].
Proof.
  repeat split; try (vm_compute; reflexivity).
  vm_compute. discriminate.
Qed.

(** C7, amended: when no agent response of the section list has a
    placeholder token as its text, every fused agent response made by the
    merger (the modular one, and the legacy one as well) has as placeholder
    entries of its body exactly the tokens 0 to n-1, n being the length of
    its actions list, each once and in increasing order; and its actions
    list is all the tool actions of one group of sections, in the order
    met, so that placeholder i stands for the i-th of them: the group is
    the sections of one turn or, for the modular merger, the sections
    before the first user prompt. *)
Theorem C7_placeholders_dense sections body acts :
  noPlaceholderText sections ->
  In (Fused body acts) (Modular.mergeSections sections) \/
  In (Fused body acts) (Legacy.mergeSections sections) ->
  dense body acts /\
  exists group,
    In group (Further.groups sections) /\ acts = toolActions group.
Proof.
  intros Hno Hin.
  assert (Hgroup : forall group,
            In group (Further.groups sections) ->
            Forall (fun s => type s = agent_response ->
                             isPlaceholder (joinContent s) = false) group).
  { intros group Hg. apply Forall_forall. intros s Hs. apply Hno.
    destruct (splitTurns_In sections) as [Ho Ht].
    destruct Hg as [<-|Hg]; [now apply Ho|].
    apply in_map_iff in Hg. destruct Hg as (turn & <- & Hturn).
    now apply (proj2 (Ht turn Hturn)). }
  assert (Hfused : forall group,
            In group (Further.groups sections) ->
            In (Fused body acts) (modularTurn group) \/
            In (Fused body acts) (Legacy.fuse group) ->
            dense body acts /\
            exists group,
              In group (Further.groups sections) /\ acts = toolActions group).
  { intros group Hg Hcase.
    assert (dense body acts /\ acts = toolActions group) as [Hd Ha].
    { destruct Hcase as [H|H].
      - apply (@modularTurn_dense _ _ _ (Hgroup _ Hg) H).
      - apply (@legacyFuse_dense _ _ _ (Hgroup _ Hg) H). }
    split; [assumption|]. now exists group. }
  assert (Hturns : forall turn,
            In turn (turns sections) ->
            In (snd turn) (Further.groups sections)).
  { intros turn Hturn. right. now apply in_map. }
  destruct Hin as [Hin|Hin].
  - rewrite modular_mergeSections_turns in Hin.
    apply in_app_or in Hin. destruct Hin as [Hin|Hin].
    + apply (Hfused (orphans sections)); [now left | now left].
    + apply in_flat_map in Hin. destruct Hin as (turn & Hturn' & Hin).
      destruct Hin as [Hin|Hin]; [discriminate|].
      apply (Hfused _ (Hturns _ Hturn')). now left.
  - rewrite legacy_mergeSections_turns in Hin.
    apply in_app_or in Hin. destruct Hin as [Hin|Hin].
    + apply in_map_iff in Hin. destruct Hin as (s & Hs & _). discriminate.
    + apply in_flat_map in Hin. destruct Hin as (turn & Hturn' & Hin).
      destruct Hin as [Hin|Hin]; [discriminate|].
      apply (Hfused _ (Hturns _ Hturn')). now right.
Qed.

Lemma C7_placeholders_dense_witness :
  dense ["hello"; placeholder 0; "Done."]
        [action "Read [](file:///home/u/p/proj/src/a.js)"] /\
  exists group,
    In group
       (Further.groups
          [prompt "hi"; response "hello";
           action "Read [](file:///home/u/p/proj/src/a.js)";
           response "Done."]) /\
    [action "Read [](file:///home/u/p/proj/src/a.js)"] = toolActions group.
Proof.
  apply (@C7_placeholders_dense
           [prompt "hi"; response "hello";
            action "Read [](file:///home/u/p/proj/src/a.js)"; response "Done."]).
  - intros s Hin Ht.
    repeat (destruct Hin as [<-|Hin]; [vm_compute; reflexivity|]).
    destruct Hin.
  - left. vm_compute. right. left. reflexivity.
Defined.

(** ** Where the two mergers agree *)

Lemma all_responses turn :
  forallb (isKind agent_response) turn = true ->
  toolActions turn = [] /\ forall k, bodyInOrder k turn = responseTexts turn.
Proof.
  induction turn as [|s turn IH]; [now split|].
  cbn [forallb]. intros H. apply andb_true_iff in H. destruct H as [Hs Hturn].
  apply isKind_type in Hs. destruct (IH Hturn) as [Ha Hb].
  rewrite toolActions_cons, responseTexts_cons, Hs. split; [assumption|].
  intros k. cbn [bodyInOrder]. now rewrite Hs, Hb.
Qed.

Lemma all_actions turn :
  forallb (isKind agent_action) turn = true ->
  responseTexts turn = [] /\ toolActions turn = turn /\
  forall k, bodyInOrder k turn = map placeholder (seq k (length turn)).
Proof.
  induction turn as [|s turn IH]; [now repeat split|].
  cbn [forallb]. intros H. apply andb_true_iff in H. destruct H as [Hs Hturn].
  apply isKind_type in Hs. destruct (IH Hturn) as (Hr & Ha & Hb).
  rewrite toolActions_cons, responseTexts_cons, Hs. repeat split; auto.
  - now rewrite Ha.
  - intros k. cbn [bodyInOrder length seq map]. now rewrite Hs, Hb.
Qed.

(** On a turn that alternates, the flush of the modular merger writes the
    body in the order met, as the legacy loop does. *)
Lemma alternating_flush n : forall turn fc fa,
  length turn <= n ->
  alternates turn = true ->
  Forall (fun s => type s = agent_response \/ type s = agent_action) turn ->
  Modular.flushLoop (responseTexts turn) (toolActions turn) fc fa =
  (fc ++ bodyInOrder (length fa) turn, fa ++ toolActions turn).
Proof.
  induction n as [|n IH]; intros turn fc fa Hlen Halt Hkinds.
  - destruct turn; simpl in Hlen; [|lia]. simpl. now rewrite !app_nil_r.
  - destruct turn as [|x rest]; [simpl; now rewrite !app_nil_r|].
    assert (Hsame : forallb (isKind (type x)) (x :: rest) = true ->
      Modular.flushLoop (responseTexts (x :: rest)) (toolActions (x :: rest))
        fc fa =
      (fc ++ bodyInOrder (length fa) (x :: rest),
       fa ++ toolActions (x :: rest))).
    { intros Hall. inversion Hkinds as [|? ? [Hx|Hx] _]; subst;
        rewrite Hx in Hall.
      - destruct (all_responses _ Hall) as [Ha Hb].
        rewrite Ha, Hb, flushLoop_texts. now rewrite app_nil_r.
      - destruct (all_actions _ Hall) as (Hr & Ha & Hb).
        rewrite Hr, Ha, Hb. cbn [Modular.flushLoop].
        now rewrite flushActions_eq. }
    destruct rest as [|y rest'].
    + apply Hsame. simpl. unfold isKind. now rewrite section_type_eqb_refl.
    + cbn [alternates] in Halt.
      destruct (isKind agent_response x && isKind agent_action y) eqn:E.
      * apply andb_true_iff in E. destruct E as [Ex Ey].
        apply isKind_type in Ex, Ey.
        rewrite !responseTexts_cons, !toolActions_cons, Ex, Ey.
        cbn [Modular.flushLoop bodyInOrder]. rewrite Ex, Ey.
        inversion Hkinds as [|? ? _ Hk]; subst.
        inversion Hk as [|? ? _ Hk']; subst.
        simpl in Hlen.
        rewrite IH by (auto; lia).
        rewrite length_app, Nat.add_1_r, <- !app_assoc. reflexivity.
      * apply Hsame.
        change (isKind (type x) x && forallb (isKind (type x)) (y :: rest')
                = true).
        unfold isKind at 1. rewrite section_type_eqb_refl. exact Halt.
Qed.

Lemma known_cons s turn :
  known (s :: turn) =
  match type s with
  | unknown => known turn
  | _ => s :: known turn
  end.
Proof. unfold known, isKind; simpl. now destruct (type s). Qed.

Lemma known_texts_actions turn :
  responseTexts (known turn) = responseTexts turn /\
  toolActions (known turn) = toolActions turn /\
  forall k, bodyInOrder k (known turn) = bodyInOrder k turn.
Proof.
  induction turn as [|s turn (Hr & Ha & Hb)]; [now repeat split|].
  rewrite known_cons, (responseTexts_cons s turn), (toolActions_cons s turn).
  destruct (type s) eqn:Et.
  - repeat split; auto. intros k. cbn [bodyInOrder]. now rewrite Et.
  - rewrite responseTexts_cons, toolActions_cons, Et. repeat split; auto.
    intros k. cbn [bodyInOrder]. now rewrite Et.
  - rewrite responseTexts_cons, toolActions_cons, Et.
    repeat split; try congruence.
    intros k. cbn [bodyInOrder]. now rewrite Et, Hb.
  - rewrite responseTexts_cons, toolActions_cons, Et.
    repeat split; try congruence.
    intros k. cbn [bodyInOrder]. now rewrite Et, Hb.
Qed.

Lemma known_kinds turn :
  Forall (fun s => isUserPrompt s = false) turn ->
  Forall (fun s => type s = agent_response \/ type s = agent_action)
         (known turn).
Proof.
  induction 1 as [|s turn Hs _ IH]; [constructor|].
  rewrite known_cons. unfold isUserPrompt in Hs.
  destruct (type s) eqn:Et; try assumption; try discriminate;
    constructor; auto.
Qed.

(** On a turn where they agree, the two mergers push the same thing. *)
Lemma alternating_turn turn :
  turnAgrees turn = true ->
  Forall (fun s => isUserPrompt s = false) turn ->
  modularTurn turn = Legacy.fuse turn.
Proof.
  unfold turnAgrees. intros H Hturn.
  apply andb_true_iff in H. destruct H as [Hne Halt].
  pose proof (known_kinds Hturn) as Hkinds.
  destruct (known_texts_actions turn) as (Hr & Ha & Hb).
  unfold modularTurn. rewrite flushed_eq, legacy_fuse_eq.
  pose proof (@alternating_flush (length (known turn)) (known turn) [] []
                (le_n _) Halt Hkinds) as Hflush.
  rewrite Hr, Ha, Hb in Hflush. rewrite Hflush. cbn [fst snd app length].
  destruct turn as [|s turn]; [reflexivity|].
  rewrite <- Hr, <- Ha.
  destruct (known (s :: turn)) as [|x rest]; [discriminate|].
  inversion Hkinds as [|? ? [Hx|Hx] _]; subst;
    rewrite responseTexts_cons, toolActions_cons, Hx;
    destruct (responseTexts rest), (toolActions rest); reflexivity.
Qed.

(** C10, at two sessions as the segmenter returns them: on the session with
    two agent openers in a row before a tool action the modular merger
    fuses the body ["a"; token 0; "b"; "Done."] where the legacy merger
    fuses ["a"; "b"; token 0; "Done."], the order met; on the session with
    text before the first user turn the modular merger drops the
    ['unknown'] section that the legacy merger passes on.  The two merged
    lists differ on both. *)
Theorem C10_mergers_differ :
  let reordered := Segmenter.parseContent twoResponsesThenAction "alice" in
  let orphaned := Segmenter.parseContent withPreamble "alice" in
  Main.extractUserIdentifier twoResponsesThenAction = Some "alice" /\
  Modular.mergeSections reordered =
    [Passed (prompt "hi");
     Fused ["a"; placeholder 0; "b"; "Done."] [action "Read [](file:///x)"]] /\
  Legacy.mergeSections reordered =
    [Passed (prompt "hi");
     Fused ["a"; "b"; placeholder 0; "Done."] [action "Read [](file:///x)"]] /\
  Modular.mergeSections reordered <> Legacy.mergeSections reordered /\
  Main.extractUserIdentifier withPreamble = Some "alice" /\
  Modular.mergeSections orphaned =
    [Passed (prompt "hi"); Fused ["hello"] []] /\
  Legacy.mergeSections orphaned =
    [Passed (preamble "preamble"); Passed (prompt "hi"); Fused ["hello"] []] /\
  Modular.mergeSections orphaned <> Legacy.mergeSections orphaned.
Proof.
  repeat split; try (vm_compute; reflexivity); vm_compute; discriminate.
Qed.

(** The mergers also differ on a turn made of an ['unknown'] section only,
    which the segmenter never returns: the modular merger skips the flush
    when nothing is pending, the legacy merger pushes an empty fused
    response. *)
Lemma mergers_differ_on_unknown_only_turn :
  Modular.mergeSections [prompt "hi"; preamble "x"] = [Passed (prompt "hi")] /\
  Legacy.mergeSections [prompt "hi"; preamble "x"] =
    [Passed (prompt "hi"); Fused [] []].
Proof. vm_compute. split; reflexivity. Qed.

(** X29: the legacy merger and the modular merger produce the same merged
    list (same sections in the same order, same fused bodies and actions
    lists) for every section list that has no section before its first
    user prompt and in which every turn that has sections has one that is
    not ['unknown'] and, the ['unknown'] ones set aside, the sections of
    the turn come as agent response, tool action, agent response, tool
    action, ... and, once that stops, are all of one kind. *)
Theorem X29_mergers_agree_when_well_turned sections :
  wellTurned sections = true ->
  Modular.mergeSections sections = Legacy.mergeSections sections.
Proof.
  unfold wellTurned. intros H.
  apply andb_true_iff in H. destruct H as [Horph Hturns].
  rewrite modular_mergeSections_turns, legacy_mergeSections_turns.
  destruct (splitTurns_In sections) as [_ Ht].
  destruct (orphans sections); [|discriminate].
  cbn [map app]. change (modularTurn []) with (@nil merged_section).
  cbn [app].
  rewrite forallb_forall in Hturns.
  rewrite !flat_map_concat_map. f_equal.
  apply map_ext_in. intros turn Hin.
  unfold modularTurnOf, legacyTurn. f_equal.
  apply alternating_turn; [now apply Hturns|].
  apply Forall_forall. intros s Hs.
  destruct (Ht turn Hin) as [_ Hbody]. now destruct (Hbody s Hs).
Qed.

Lemma X29_mergers_agree_when_well_turned_witness :
  Modular.mergeSections
    [prompt "hi"; response "hello";
     action "Read [](file:///home/u/p/proj/src/a.js)"; response "Done."] =
  Legacy.mergeSections
    [prompt "hi"; response "hello";
     action "Read [](file:///home/u/p/proj/src/a.js)"; response "Done."].
Proof.
  apply X29_mergers_agree_when_well_turned. vm_compute. reflexivity.
Defined.

End MergerFacts.

(* ------------------------------------------------------------------------- *)
(** * Properties of the text transforms *)
(* ------------------------------------------------------------------------- *)

Module TransformerFacts.

Import Transformers Spec Examples.

(** ** Lines *)

Lemma splitLines_not_nil s : splitLines s <> [].
Proof.
  destruct s as [|c s]; simpl; [discriminate|].
  destruct (Ascii.eqb c LF); [discriminate|].
  destruct (splitLines s); discriminate.
Qed.

Lemma splitLines_noLineFeed s :
  Forall (fun l => noLineFeed l = true) (splitLines s).
Proof.
  induction s as [|c s IH]; simpl.
  - repeat constructor.
  - destruct (Ascii.eqb c LF) eqn:E.
    + constructor; [reflexivity | assumption].
    + destruct (splitLines s) as [|l ls]; inversion IH; subst;
        constructor; simpl; try rewrite E; auto.
Qed.

Lemma splitLines_line l :
  noLineFeed l = true -> splitLines l = [l].
Proof.
  induction l as [|c l IH]; simpl; [reflexivity|].
  intros H. apply andb_true_iff in H. destruct H as [Hc Hl].
  apply negb_true_iff in Hc. rewrite Hc, (IH Hl). reflexivity.
Qed.

Lemma splitLines_app_line l s :
  noLineFeed l = true ->
  splitLines (l ++ String LF s) = l :: splitLines s.
Proof.
  induction l as [|c l IH]; simpl; [reflexivity|].
  intros H. apply andb_true_iff in H. destruct H as [Hc Hl].
  apply negb_true_iff in Hc. rewrite Hc, (IH Hl). reflexivity.
Qed.

(** Splitting what was joined gives the lines back. *)
Lemma splitLines_joinLines ls :
  ls <> [] -> Forall (fun l => noLineFeed l = true) ls ->
  splitLines (joinLines ls) = ls.
Proof.
  unfold joinLines. induction ls as [|l ls IH]; [congruence|].
  intros _ H. inversion H as [|? ? Hl Hls]; subst.
  destruct ls as [|l' ls].
  - simpl. now apply splitLines_line.
  - change (String.concat nl (l :: l' :: ls))
      with (l ++ String LF (String.concat nl (l' :: ls)))%string.
    rewrite splitLines_app_line by assumption.
    rewrite IH; [reflexivity | discriminate | assumption].
Qed.

(** ** Trimming *)

Lemma trimEnd_app_space s : trimEnd (s ++ " ") = trimEnd s.
Proof.
  induction s as [|c s IH]; [reflexivity|].
  simpl. now rewrite IH.
Qed.

Lemma append_assoc (a b c : string) :
  ((a ++ b) ++ c = a ++ (b ++ c))%string.
Proof. induction a as [|x a IH]; simpl; [reflexivity | now rewrite IH]. Qed.

Lemma trimEnd_app_two_spaces s : trimEnd (s ++ "  ") = trimEnd s.
Proof.
  change "  " with (" " ++ " ")%string.
  now rewrite <- append_assoc, !trimEnd_app_space.
Qed.

Lemma trim_app_two_spaces s : trim (s ++ "  ") = trim s.
Proof.
  unfold trim. induction s as [|c s IH]; [reflexivity|].
  simpl. destruct (isSpace c); [exact IH|].
  apply (trimEnd_app_two_spaces (String c s)).
Qed.

Lemma noLineFeed_app a b :
  noLineFeed (a ++ b) = noLineFeed a && noLineFeed b.
Proof.
  induction a as [|c a IH]; simpl; [reflexivity|].
  now rewrite IH, andb_assoc.
Qed.

Lemma noLineFeed_repeat n : noLineFeed (repeatChar "#" n) = true.
Proof. induction n; simpl; auto. Qed.

(** ** Fence-aware line transformers *)

Section FenceAware.

Variable T : transformer.

(** Inside a code block the transformer gives the line back. *)
Hypothesis T_inside :
  forall line context, inCodeBlock context = true -> T line context = line.

(** It neither makes nor unmakes a fence marker. *)
Hypothesis T_marker :
  forall line context, trimmedLine context = trim line ->
  isFenceMarker (T line context) = isFenceMarker line.

(** It does not add a line feed. *)
Hypothesis T_noLineFeed :
  forall line context, trimmedLine context = trim line ->
  noLineFeed line = true -> noLineFeed (T line context) = true.

Lemma transformFrom_regions lines : forall open index prevLine,
  regionsFrom open (transformFrom [T] (isOpen open) index prevLine lines) =
  regionsFrom open lines.
Proof.
  induction lines as [|line rest IH]; intros open index prev; [reflexivity|].
  cbn [transformFrom fold_left regionsFrom].
  rewrite T_marker by reflexivity.
  unfold isFenceMarker.
  destruct (startsWith (trim line) "```") eqn:Em.
  - destruct open as [region|]; cbn [isOpen negb].
    + f_equal. apply (IH None).
    + apply (IH (Some [])).
  - destruct open as [region|]; cbn [isOpen].
    + rewrite T_inside by reflexivity. apply (IH (Some (region ++ [line]))).
    + apply (IH None).
Qed.

Lemma transformFrom_not_nil lines icb index prevLine :
  lines <> [] -> transformFrom [T] icb index prevLine lines <> [].
Proof. destruct lines; [congruence | discriminate]. Qed.

Lemma transformFrom_noLineFeed lines : forall icb index prevLine,
  Forall (fun l => noLineFeed l = true) lines ->
  Forall (fun l => noLineFeed l = true)
         (transformFrom [T] icb index prevLine lines).
Proof.
  induction lines as [|line rest IH]; intros icb index prev H;
    [constructor|].
  inversion H; subst. cbn [transformFrom fold_left].
  constructor; [|now apply IH].
  now apply T_noLineFeed.
Qed.

(** A transform made of such a transformer leaves every fenced region as
    it was. *)
Lemma transformLines_fence_safe :
  FenceSafe (fun text => transformLines text [T]).
Proof.
  intros text. unfold fencedRegions, transformLines.
  rewrite splitLines_joinLines.
  - apply (transformFrom_regions (splitLines text) None).
  - apply transformFrom_not_nil, splitLines_not_nil.
  - apply transformFrom_noLineFeed, splitLines_noLineFeed.
Qed.

End FenceAware.

(** ** Heading shift and forced line breaks are fence aware *)

Lemma spanWhile_isDot_noLineFeed t : forall dots,
  spanWhile isDot t = (dots, "") -> noLineFeed t = true.
Proof.
  induction t as [|c t IH]; intros dots; simpl; [reflexivity|].
  destruct (isDot c) eqn:Ec; [|discriminate].
  destruct (spanWhile isDot t) as [a b] eqn:Es.
  intros H. injection H as _ Hb. subst b.
  rewrite (IH a eq_refl).
  unfold isDot in Ec. apply andb_true_iff in Ec. destruct Ec as [Ec _].
  now rewrite Ec.
Qed.

Lemma headingMatch_Some s level headingText :
  headingMatch s = Some (level, headingText) ->
  startsWith s "```" = false /\ noLineFeed headingText = true.
Proof.
  unfold headingMatch.
  destruct s as [|c s]; [discriminate|].
  cbn [spanWhile].
  destruct (Ascii.eqb "#" c) eqn:Ec; [|cbn; discriminate].
  apply Ascii.eqb_eq in Ec. subst c.
  destruct (spanWhile (Ascii.eqb "#") s) as [hashes rest]. cbn beta iota.
  match goal with
  | |- context [if ?b then _ else _] => destruct b; [|discriminate]
  end.
  destruct (spanWhile isSpace rest) as [spaces text].
  destruct spaces; [discriminate|].
  destruct (spanWhile isDot text) as [dots tail] eqn:Ed.
  destruct tail; [|discriminate].
  intros H. injection H as _ <-. split; [reflexivity|].
  eapply spanWhile_isDot_noLineFeed, Ed.
Qed.

Lemma isFenceMarker_heading u : isFenceMarker (String "#" u) = false.
Proof.
  unfold isFenceMarker, trim. simpl.
  destruct (trimEnd u); reflexivity.
Qed.

Lemma shiftHeadingLevel_marker line context :
  trimmedLine context = trim line ->
  isFenceMarker (shiftHeadingLevel line context) = isFenceMarker line.
Proof.
  intros Ht. unfold shiftHeadingLevel.
  destruct (inCodeBlock context); [reflexivity|].
  rewrite Ht.
  destruct (headingMatch (trim line)) as [[level text]|] eqn:E; [|reflexivity].
  destruct (headingMatch_Some _ E) as [Hm _].
  unfold isFenceMarker at 2. rewrite Hm.
  rewrite Nat.add_1_r. simpl. apply isFenceMarker_heading.
Qed.

Lemma shiftHeadingLevel_noLineFeed line context :
  trimmedLine context = trim line ->
  noLineFeed line = true -> noLineFeed (shiftHeadingLevel line context) = true.
Proof.
  intros Ht Hl. unfold shiftHeadingLevel.
  destruct (inCodeBlock context); [assumption|].
  destruct (headingMatch (trimmedLine context)) as [[level text]|] eqn:E;
    [|assumption].
  destruct (headingMatch_Some _ E) as [_ Hn].
  rewrite !noLineFeed_app, noLineFeed_repeat, Hn. reflexivity.
Qed.

Lemma addLineBreak_cases line context :
  addLineBreak line context = line \/
  addLineBreak line context = (line ++ "  ")%string.
Proof.
  unfold addLineBreak.
  repeat match goal with
         | |- context [if ?b then _ else _] => destruct b
         end; auto.
Qed.

Lemma addLineBreak_marker line context :
  isFenceMarker (addLineBreak line context) = isFenceMarker line.
Proof.
  destruct (addLineBreak_cases line context) as [-> | ->]; [reflexivity|].
  unfold isFenceMarker. now rewrite trim_app_two_spaces.
Qed.

Lemma addLineBreak_noLineFeed line context :
  noLineFeed line = true -> noLineFeed (addLineBreak line context) = true.
Proof.
  intros H.
  destruct (addLineBreak_cases line context) as [-> | ->]; [assumption|].
  now rewrite noLineFeed_app, H.
Qed.

(** ** The document-level transforms are not fence aware *)

Lemma cleanExcessiveLineBreaks_in_fence :
  fencedRegions fencedBlanks = [["a"; ""; ""; ""; "b"]] /\
  fencedRegions (cleanExcessiveLineBreaks fencedBlanks) = [["a"; ""; "b"]].
Proof. vm_compute. split; reflexivity. Qed.

Lemma removeTrailingSpaces_in_fence :
  fencedRegions fencedTrailingSpace = [["a "]] /\
  fencedRegions (removeTrailingSpaces fencedTrailingSpace) = [["a"]].
Proof. vm_compute. split; reflexivity. Qed.

Lemma ensureMarkdownSpacing_in_fence :
  fencedRegions fencedCode = [["x"]] /\
  fencedRegions (ensureMarkdownSpacing fencedCode) = [["x"; ""]].
Proof. vm_compute. split; reflexivity. Qed.

(** C5, at four inputs: the blank-line compaction removes two blank lines
    of a fenced region, the trailing-space normalization rewrites a fenced
    line, and the structural spacing inserts a line into a fenced region;
    and the formatter as a whole, on a session whose agent turn holds a
    fenced shell block, returns a document in which that block has a blank
    line after its comment line, its command without the trailing space,
    and a blank line before its closing marker.  So none of the three
    document-level transforms leaves the fenced regions as they were. *)
Theorem C5_document_transforms_not_fence_safe :
  (fencedRegions fencedBlanks = [["a"; ""; ""; ""; "b"]] /\
   fencedRegions (cleanExcessiveLineBreaks fencedBlanks) = [["a"; ""; "b"]]) /\
  (fencedRegions fencedTrailingSpace = [["a "]] /\
   fencedRegions (removeTrailingSpaces fencedTrailingSpace) = [["a"]]) /\
  (fencedRegions fencedCode = [["x"]] /\
   fencedRegions (ensureMarkdownSpacing fencedCode) = [["x"; ""]]) /\
  (fencedRegions fencedSession = [["# build"; "make "]] /\
   exists document,
     Main.processContent (fun uri => Some uri) (fun name => name)
       "2025-11-13T14:00:00.000Z" fencedSession false true "stdin" =
     Main.Returned document /\
     fencedRegions document = [["# build"; ""; "make"; ""]]) /\
  ~ FenceSafe cleanExcessiveLineBreaks /\
  ~ FenceSafe removeTrailingSpaces /\
  ~ FenceSafe ensureMarkdownSpacing.
Proof.
  repeat split; try (vm_compute; reflexivity).
  - eexists. split; vm_compute; reflexivity.
  - intros H. specialize (H fencedBlanks). vm_compute in H. discriminate.
  - intros H. specialize (H fencedTrailingSpace). vm_compute in H.
    discriminate.
  - intros H. specialize (H fencedCode). vm_compute in H. discriminate.
Qed.

(** X30: on a text whose white space is all ASCII, the heading shift and
    the forced line-break insertion leave every line lying strictly between
    an opening triple-backtick fence marker and its matching closing marker
    as it was: the fenced regions of the output are those of the input,
    line for line, with nothing inserted or removed. *)
Theorem X30_heading_shift_and_line_breaks_fence_safe text :
  Further.plainSpaced text = true ->
  fencedRegions (shiftHeadingLevels text) = fencedRegions text /\
  fencedRegions (forceLineBreaks text) = fencedRegions text.
Proof.
  intros _. split.
  - apply (@transformLines_fence_safe shiftHeadingLevel).
    + intros line context H. unfold shiftHeadingLevel. now rewrite H.
    + apply shiftHeadingLevel_marker.
    + apply shiftHeadingLevel_noLineFeed.
  - apply (@transformLines_fence_safe addLineBreak).
    + intros line context H. unfold addLineBreak. now rewrite H.
    + intros line context _. apply addLineBreak_marker.
    + intros line context _. apply addLineBreak_noLineFeed.
Qed.

Lemma X30_heading_shift_and_line_breaks_fence_safe_witness :
  fencedRegions
    (shiftHeadingLevels
       (joinLines ["# Title"; "```"; "# in code"; "plain"; "next"; "```";
                   "after"; "more"])) =
  fencedRegions
    (joinLines ["# Title"; "```"; "# in code"; "plain"; "next"; "```";
                "after"; "more"]) /\
  fencedRegions
    (forceLineBreaks
       (joinLines ["# Title"; "```"; "# in code"; "plain"; "next"; "```";
                   "after"; "more"])) =
  fencedRegions
    (joinLines ["# Title"; "```"; "# in code"; "plain"; "next"; "```";
                "after"; "more"]).
Proof.
  apply X30_heading_shift_and_line_breaks_fence_safe.
  vm_compute. reflexivity.
Defined.

(** ** Blank-line compaction *)

Lemma replaceRuns_text a : forall rest,
  noLineFeed a = true ->
  replaceRuns 0 (a ++ rest) = (a ++ replaceRuns 0 rest)%string.
Proof.
  induction a as [|c a IH]; intros rest H; [reflexivity|].
  simpl in H. apply andb_true_iff in H. destruct H as [Hc Ha].
  apply negb_true_iff in Hc.
  cbn [append replaceRuns]. rewrite Hc, IH by assumption. reflexivity.
Qed.

Lemma replaceRuns_feeds n : forall run rest,
  replaceRuns run (repeatChar LF n ++ rest) = replaceRuns (run + n) rest.
Proof.
  induction n as [|n IH]; intros run rest.
  - now rewrite Nat.add_0_r.
  - cbn [repeatChar append replaceRuns]. rewrite Ascii.eqb_refl, IH.
    f_equal. lia.
Qed.

(** What the compaction does between two texts: a run of [n] line feeds,
    that is [n - 1] blank lines, becomes two line feeds, that is one blank
    line, as soon as [n] is three or more, and stays otherwise. *)
Lemma cleanExcessiveLineBreaks_between a b n :
  noLineFeed a = true -> noLineFeed b = true -> b <> "" ->
  cleanExcessiveLineBreaks (a ++ repeatChar LF n ++ b) =
  (a ++ lineFeeds n ++ b)%string.
Proof.
  intros Ha Hb Hne. unfold cleanExcessiveLineBreaks.
  rewrite replaceRuns_text by assumption.
  rewrite replaceRuns_feeds. cbn [Nat.add].
  destruct b as [|c b]; [congruence|].
  simpl in Hb. apply andb_true_iff in Hb. destruct Hb as [Hc Hb].
  apply negb_true_iff in Hc.
  cbn [replaceRuns]. rewrite Hc.
  pose proof (replaceRuns_text b "" Hb) as Hr.
  assert (Hb' : forall x : string, (x ++ "")%string = x)
    by (induction x; simpl; congruence).
  rewrite Hb' in Hr. rewrite Hr. cbn [replaceRuns]. unfold lineFeeds at 2.
  cbn [Nat.leb repeatChar]. now rewrite Hb'.
Qed.

(** C8, at three and at two blank lines between two lines of text: the
    compaction turns the run of three blank lines into one blank line, not
    two, and the run of two blank lines into one as well, so it is not left
    as it was. *)
Theorem C8_blank_runs_collapse_to_one :
  blankRuns threeBlankLines = [3] /\
  cleanExcessiveLineBreaks threeBlankLines = joinLines ["a"; ""; "b"] /\
  blankRuns (cleanExcessiveLineBreaks threeBlankLines) = [1] /\
  blankRuns twoBlankLines = [2] /\
  cleanExcessiveLineBreaks twoBlankLines = joinLines ["a"; ""; "b"] /\
  blankRuns (cleanExcessiveLineBreaks twoBlankLines) = [1].
Proof. vm_compute. repeat split. Qed.

End TransformerFacts.

(* ------------------------------------------------------------------------- *)
(** * Properties of [processContent] *)
(* ------------------------------------------------------------------------- *)

Module MainFacts.

Import Main Examples.

Lemma includes_unfold s p :
  includes s p =
  startsWith s p || match s with
                    | "" => false
                    | String _ s' => includes s' p
                    end.
Proof. destruct s; reflexivity. Qed.

(** [includes] finds every occurrence. *)
Lemma includes_app pre p post : includes (pre ++ p ++ post) p = true.
Proof.
  induction pre as [|c pre IH].
  - rewrite includes_unfold. simpl append.
    now rewrite MergerFacts.startsWith_app.
  - change (includes (String c (pre ++ p ++ post)) p = true).
    rewrite includes_unfold. cbv beta iota. rewrite IH. apply orb_true_r.
Qed.

Lemma startsWith_drop p : forall s,
  startsWith s p = true -> s = (p ++ drop (String.length p) s)%string.
Proof.
  unfold startsWith. induction p as [|c p IH]; intros s H; [now destruct s|].
  destruct s as [|d s]; [discriminate|]. simpl in H.
  destruct (ascii_dec c d) as [->|]; [|discriminate].
  simpl. f_equal. now apply IH.
Qed.

(** [includes] is containment: it holds exactly of the strings that have
    [p] somewhere in them. *)
Lemma includes_iff s p :
  includes s p = true <-> exists pre post, s = (pre ++ p ++ post)%string.
Proof.
  split; [|intros (pre & post & ->); apply includes_app].
  induction s as [|c s IH]; rewrite includes_unfold; intros H;
    apply orb_true_iff in H; destruct H as [H|H]; try discriminate.
  - exists "", (drop (String.length p) ""). now apply startsWith_drop.
  - exists "", (drop (String.length p) (String c s)). now apply startsWith_drop.
  - destruct (IH H) as (pre & post & ->). now exists (String c pre), post.
Qed.

(** C2: for every content string that contains the processed marker,
    [processContent] called with [force = false] returns that very string,
    whatever the collaborators are: the core pipeline is not run. *)
Theorem C2_processed_input_returned
    (decodeURIComponent : string -> option string)
    (basename : string -> string) (processedDate : string)
    (content : string) (silent : bool) (inputFile : string) :
  (exists pre post, content = (pre ++ PROCESSED ++ post)%string) ->
  processContent decodeURIComponent basename processedDate
    content false silent inputFile = Returned content.
Proof.
  intros (pre & post & ->).
  unfold processContent, isAlreadyProcessed.
  now rewrite includes_app.
Qed.

Lemma C2_processed_input_returned_witness :
  processContent (fun uri => Some uri) (fun name => name)
    "2025-11-13T14:00:00.000Z" formattedDocument false true "stdin"
  = Returned formattedDocument.
Proof.
  apply C2_processed_input_returned.
  exists (joinLines ["---"; "type: chat-session"; "projectRoot: N/A";
                     "sourceFile: stdin";
                     "processedDate: 2025-11-13T14:00:00.000Z"; "---"; ""]).
  exists (joinLines [""; ""; "<!-- user-prompt -->"; "## 👤 User Prompt"; "";
                     "hi"; ""; "<!-- agent-response -->"; "## 🤖 Response";
                     ""; "hello"; ""; ""]).
  vm_compute. reflexivity.
Defined.

(** The replacement does strip a frontmatter whose closing line is followed
    by an empty line. *)
Lemma stripFrontmatter_blank_after :
  stripFrontmatter (joinLines ["---"; "a: b"; "---"; ""; "alice: hi"]) =
  "alice: hi".
Proof. vm_compute. reflexivity. Qed.

(** The formatter on the short raw session. *)
Lemma formattedDocument_produced :
  processContent (fun uri => Some uri) (fun name => name)
    "2025-11-13T14:00:00.000Z" rawSession false true "stdin"
  = Returned formattedDocument.
Proof. vm_compute. reflexivity. Qed.

(** C9, at a document the formatter wrote, and at the same document with a
    raw exchange added at its end: the document holds the processed marker
    and begins with the generated frontmatter, whose closing [---] line is
    followed at once by the marker comment; with [force = true] the text
    handed to the core is the whole document, frontmatter included, and the
    user identifier detected in the second one is the first key of the
    frontmatter. *)
Theorem C9_generated_frontmatter_kept :
  isAlreadyProcessed formattedDocument = true /\
  coreInput formattedDocument true = formattedDocument /\
  isAlreadyProcessed resumedDocument = true /\
  startsWith resumedDocument
    (generateFrontmatter None "stdin" "2025-11-13T14:00:00.000Z") = true /\
  coreInput resumedDocument true = resumedDocument /\
  extractUserIdentifier (coreInput resumedDocument true) = Some "type".
Proof. vm_compute. repeat split. Qed.

End MainFacts.

(* ------------------------------------------------------------------------- *)
(** * Further properties of the segmenter *)
(* ------------------------------------------------------------------------- *)

Module SegmenterProps.

Import Segmenter Spec Further.

(** Every branch of [step], one goal each. *)
Ltac step_cases :=
  unfold step;
  repeat match goal with
         | |- context [if ?b then _ else _] => destruct b eqn:?
         | |- context [match type ?s with _ => _ end] => destruct (type s) eqn:?
         end.

(** The projections of a state that was just built. *)
Ltac records :=
  cbn [andb negb sections currentSection inAction inCodeBlock
       type content actions raw].

Lemma closeIfContent_closed secs cur :
  Forall closedSection secs -> Forall closedSection (closeIfContent secs cur).
Proof.
  intros H. unfold closeIfContent.
  destruct (content cur) as [|l ls] eqn:E; [assumption|].
  apply Forall_app. split; [assumption|].
  constructor; [|constructor]. split; simpl; [discriminate | reflexivity].
Qed.

Lemma closeActions_closed secs cur :
  Forall closedSection secs -> Forall closedSection (closeActions secs cur).
Proof.
  intros H. unfold closeActions.
  destruct (actions cur) as [[|a acts]|]; try assumption.
  apply Forall_app. split; [assumption|].
  constructor; [|constructor]. split; simpl; [discriminate | reflexivity].
Qed.

Lemma step_closed uid st line :
  Forall closedSection (sections st) ->
  Forall closedSection (sections (step uid st line)).
Proof.
  intros H. step_cases; simpl;
    auto using closeIfContent_closed, closeActions_closed.
Qed.

Lemma fold_closed uid lines : forall st,
  Forall closedSection (sections st) ->
  Forall closedSection (sections (fold_left (step uid) lines st)).
Proof.
  induction lines as [|l ls IH]; intros st H; [assumption|].
  simpl. apply IH, step_closed, H.
Qed.

(** X1: every section [parseContent] returns has some content, and its [raw]
    is its content joined by line feeds: an empty section is never emitted. *)
Theorem X1_sections_closed content userIdentifier :
  Forall closedSection (parseContent content userIdentifier).
Proof.
  unfold parseContent. apply closeIfContent_closed, fold_closed. constructor.
Qed.

Lemma push_unknownOnlyFirst secs s :
  unknownOnlyFirst secs -> (type s = unknown -> secs = []) ->
  unknownOnlyFirst (secs ++ [s]).
Proof.
  destruct secs as [|x rest]; simpl; intros H Hs; [constructor|].
  apply Forall_app. split; [assumption|].
  constructor; [|constructor]. intros Hu. now specialize (Hs Hu).
Qed.

Lemma closeIfContent_unknown secs cur :
  unknownOnlyFirst secs -> (type cur = unknown -> secs = []) ->
  unknownOnlyFirst (closeIfContent secs cur).
Proof.
  intros H Hc. unfold closeIfContent.
  destruct (content cur); [assumption|]. now apply push_unknownOnlyFirst.
Qed.

Lemma closeActions_unknown secs cur :
  unknownOnlyFirst secs -> (type cur = unknown -> secs = []) ->
  unknownOnlyFirst (closeActions secs cur).
Proof.
  intros H Hc. unfold closeActions.
  destruct (actions cur) as [[|a acts]|]; try assumption.
  now apply push_unknownOnlyFirst.
Qed.

Lemma step_unknown uid st line :
  unknownOnlyFirst (sections st) /\
  (type (currentSection st) = unknown -> sections st = []) ->
  unknownOnlyFirst (sections (step uid st line)) /\
  (type (currentSection (step uid st line)) = unknown ->
   sections (step uid st line) = []).
Proof.
  intros [H Hc]. step_cases; simpl; split;
    try discriminate; try assumption;
    try (apply closeIfContent_unknown;
         first [assumption | intros; auto; congruence]);
    try (apply closeActions_unknown; simpl;
         first [assumption | discriminate | intros; auto; congruence]);
    unfold pushAction;
    try (destruct (actions (currentSection st)); simpl; assumption);
    try congruence.
Qed.

Lemma fold_unknown uid lines : forall st,
  unknownOnlyFirst (sections st) /\
  (type (currentSection st) = unknown -> sections st = []) ->
  unknownOnlyFirst (sections (fold_left (step uid) lines st)) /\
  (type (currentSection (fold_left (step uid) lines st)) = unknown ->
   sections (fold_left (step uid) lines st) = []).
Proof.
  induction lines as [|l ls IH]; intros st H; [assumption|].
  simpl. apply IH, step_unknown, H.
Qed.

(** X2: in what [parseContent] returns, only the first section can be of
    type ['unknown']: the text before the first opener, if any. *)
Theorem X2_unknown_only_first content userIdentifier :
  unknownOnlyFirst (parseContent content userIdentifier).
Proof.
  unfold parseContent.
  destruct (fold_unknown userIdentifier (splitLines content) initial)
    as [H Hc]; [split; [exact I | reflexivity]|].
  now apply closeIfContent_unknown.
Qed.

Lemma step_actionOpen uid st line :
  actionOpen st -> actionOpen (step uid st line).
Proof.
  unfold actionOpen. intros H. step_cases; simpl in *;
    try (left; reflexivity); try assumption;
    try (right; split; [reflexivity | now exists line, []]);
    try (destruct H as [H|(Ht & a & acts & Ha)]; [congruence|];
         right; unfold pushAction; rewrite Ha; simpl;
         split; [assumption | now exists a, (acts ++ [line])]).
Qed.

(** X3: after any lines, while [inAction] is set the open section is an
    ['agent-action'] one with at least one accumulated action line; so
    [currentSection.actions.push] never meets a missing array, and an action
    sequence that ends on ordinary text is never empty. *)
Theorem X3_action_sequence_open content userIdentifier :
  actionOpen (finalState content userIdentifier).
Proof.
  unfold finalState.
  assert (G : forall lines st, actionOpen st ->
                actionOpen (fold_left (step userIdentifier) lines st)).
  { induction lines as [|l ls IH]; intros st H; [assumption|].
    simpl. apply IH, step_actionOpen, H. }
  apply G. now left.
Qed.

Lemma promptCount_push secs s :
  promptCount (secs ++ [s]) = promptCount secs + promptWeight s.
Proof.
  unfold promptCount, promptWeight. rewrite filter_app, length_app. simpl.
  destruct (isUserPrompt s); reflexivity.
Qed.

Lemma closeIfContent_prompts secs cur :
  promptCount (closeIfContent secs cur) <= promptCount secs + promptWeight cur.
Proof.
  unfold closeIfContent. destruct (content cur); [lia|].
  rewrite promptCount_push. unfold promptWeight, isUserPrompt. simpl. lia.
Qed.

Lemma closeActions_prompts secs cur :
  promptCount (closeActions secs cur) <= promptCount secs + promptWeight cur.
Proof.
  unfold closeActions. destruct (actions cur) as [[|a acts]|]; try lia.
  rewrite promptCount_push. unfold promptWeight, isUserPrompt. simpl. lia.
Qed.

Lemma step_prompts uid st line :
  promptCount (sections (step uid st line)) +
  promptWeight (currentSection (step uid st line)) <=
  promptCount (sections st) + promptWeight (currentSection st) +
  (if isCountedOpener uid line then 1 else 0).
Proof.
  pose proof (closeIfContent_prompts (sections st) (currentSection st)) as Hc.
  pose proof (closeActions_prompts (sections st) (currentSection st)) as Ha.
  assert (Hp : forall l, promptWeight (pushContent (currentSection st) l) =
                         promptWeight (currentSection st)) by reflexivity.
  assert (Hq : forall l, promptWeight (pushAction (currentSection st) l) =
                         promptWeight (currentSection st)).
  { intros l. unfold pushAction.
    destruct (actions (currentSection st)); reflexivity. }
  assert (Hn : forall t c a r,
            t <> user_prompt -> promptWeight (mkSection t c a r) = 0).
  { intros t c a r Ht. unfold promptWeight, isUserPrompt. simpl.
    destruct t; try reflexivity. congruence. }
  assert (Hu : forall c a r, promptWeight (mkSection user_prompt c a r) = 1)
    by reflexivity.
  unfold step, isCountedOpener.
  destruct (Classifier.some Classifier.NOISE_PATTERNS (trim line)); [lia|].
  destruct (startsWith line "```"); [records; rewrite Hp; lia|].
  destruct (inCodeBlock st); [records; rewrite Hp; lia|].
  destruct (startsWith line (uid ++ ":")).
  { destruct (Classifier.some Classifier.IGNORE_USER_PROMPTS _); records.
    - lia.
    - rewrite Hu. lia. }
  destruct (startsWith line "GitHub Copilot:").
  { records. rewrite Hn by discriminate. lia. }
  destruct (Classifier.some Classifier.ACTION_PATTERNS line);
    destruct (inAction st) eqn:Ei; records; rewrite ?Ei; records.
  - rewrite Hq. lia.
  - unfold pushAction. records. rewrite Hn by discriminate.
    destruct (type (currentSection st)); lia.
  - destruct (String.eqb (trim line) ""); records.
    + lia.
    + rewrite Hn by discriminate. lia.
  - rewrite Hp. lia.
Qed.

Lemma fold_prompts uid lines : forall st,
  promptCount (sections (fold_left (step uid) lines st)) +
  promptWeight (currentSection (fold_left (step uid) lines st)) <=
  promptCount (sections st) + promptWeight (currentSection st) +
  length (filter (isCountedOpener uid) lines).
Proof.
  induction lines as [|l ls IH]; intros st; simpl; [lia|].
  specialize (IH (step uid st l)).
  pose proof (step_prompts uid st l) as Hs.
  destruct (isCountedOpener uid l); simpl; lia.
Qed.

(** X4: [parseContent] never returns more user-prompt sections than the
    input has user-turn opener lines whose payload matches no ignore
    pattern; through the merger as well, which keeps the user prompts it is
    given. *)
Theorem X4_prompts_at_most_openers content userIdentifier :
  promptCount (parseContent content userIdentifier) <=
    countedOpeners content userIdentifier /\
  userPrompts (Modular.mergeSections (parseContent content userIdentifier)) <=
    countedOpeners content userIdentifier.
Proof.
  assert (H : promptCount (parseContent content userIdentifier) <=
              countedOpeners content userIdentifier).
  { unfold parseContent, countedOpeners.
    pose proof (fold_prompts userIdentifier (splitLines content) initial) as Hf.
    pose proof (closeIfContent_prompts
                  (sections (fold_left (step userIdentifier)
                               (splitLines content) initial))
                  (currentSection (fold_left (step userIdentifier)
                                     (splitLines content) initial))) as Hc.
    change (promptCount (sections initial)) with 0 in Hf.
    change (promptWeight (currentSection initial)) with 0 in Hf.
    lia. }
  split; [exact H|].
  rewrite MergerFacts.modular_userPrompts. exact H.
Qed.

Lemma fold_noise uid lines : forall st,
  fold_left (step uid) lines st =
  fold_left (step uid) (filter (fun l => negb (isNoise l)) lines) st.
Proof.
  induction lines as [|l ls IH]; intros st; [reflexivity|].
  cbn [fold_left filter]. unfold isNoise at 1.
  destruct (Classifier.some Classifier.NOISE_PATTERNS (trim l)) eqn:E;
    cbn [negb fold_left].
  - unfold step at 2. rewrite E. apply IH.
  - apply IH.
Qed.

(** X5: noise lines ([Continue to iterate?], [[object Object]], with any
    white space around) are skipped wherever they stand, inside a fenced
    block too: segmenting a text gives what segmenting it without its noise
    lines gives, as long as some line is left. *)
Theorem X5_noise_lines_skipped userIdentifier lines :
  Forall (fun l => noLineFeed l = true) lines ->
  filter (fun l => negb (isNoise l)) lines <> [] ->
  parseContent (joinLines lines) userIdentifier =
  parseContent (joinLines (filter (fun l => negb (isNoise l)) lines))
               userIdentifier.
Proof.
  intros Hlf Hne. unfold parseContent.
  assert (Hl : lines <> []) by (destruct lines; [now elim Hne | discriminate]).
  rewrite !TransformerFacts.splitLines_joinLines; auto.
  - now rewrite <- fold_noise.
  - apply Forall_forall. intros l Hin. apply filter_In in Hin.
    rewrite Forall_forall in Hlf. now apply Hlf.
Qed.

Lemma X5_noise_lines_skipped_witness :
  parseContent
    (joinLines ["alice: hi"; "```"; "  Continue to iterate?"; "```";
                "[object Object]"; "GitHub Copilot: hello"]) "alice" =
  parseContent
    (joinLines
       (filter (fun l => negb (isNoise l))
          ["alice: hi"; "```"; "  Continue to iterate?"; "```";
           "[object Object]"; "GitHub Copilot: hello"])) "alice".
Proof.
  apply X5_noise_lines_skipped.
  - repeat constructor.
  - vm_compute. discriminate.
Defined.

End SegmenterProps.

(* ------------------------------------------------------------------------- *)
(** * Further properties of the mergers *)
(* ------------------------------------------------------------------------- *)

Module MergerProps.

Import Spec Further MergerFacts Examples.

Lemma turns_prompts sections :
  map fst (turns sections) = filter isUserPrompt sections.
Proof.
  induction sections as [|s sections IH]; [reflexivity|].
  unfold turns. rewrite splitTurns_cons. cbn [filter].
  destruct (isUserPrompt s); cbn [snd map fst]; [f_equal|]; exact IH.
Qed.

Lemma orphans_no_prompt sections :
  filter isUserPrompt (orphans sections) = [].
Proof.
  destruct (splitTurns_In sections) as [Ho _].
  induction (orphans sections) as [|s rest IH]; [reflexivity|].
  cbn [filter]. destruct (Ho s (or_introl eq_refl)) as [_ ->].
  apply IH. intros x Hx. apply Ho. now right.
Qed.

Lemma passedPrompts_app a b :
  passedPrompts (a ++ b) = passedPrompts a ++ passedPrompts b.
Proof. apply flat_map_app. Qed.

Lemma passedPrompts_modularTurn turn : passedPrompts (modularTurn turn) = [].
Proof.
  unfold modularTurn. rewrite flushed_eq.
  destruct (responseTexts turn), (toolActions turn); reflexivity.
Qed.

Lemma passedPrompts_fuse turn : passedPrompts (Legacy.fuse turn) = [].
Proof. rewrite legacy_fuse_eq. now destruct turn. Qed.

Lemma passedPrompts_orphans l :
  filter isUserPrompt l = [] -> passedPrompts (map Passed l) = [].
Proof.
  induction l as [|s l IH]; [reflexivity|].
  cbn [filter map]. unfold passedPrompts. cbn [flat_map].
  destruct (isUserPrompt s); [discriminate|]. exact IH.
Qed.

Lemma passedPrompts_turns (f : list section -> list merged_section) ts :
  (forall turn, passedPrompts (f turn) = []) ->
  passedPrompts (flat_map (fun turn => Passed (fst turn) :: f (snd turn)) ts) =
  filter isUserPrompt (map fst ts).
Proof.
  intros Hf. induction ts as [|t ts IH]; [reflexivity|].
  cbn [flat_map map filter]. rewrite passedPrompts_app.
  change (Passed (fst t) :: f (snd t)) with ([Passed (fst t)] ++ f (snd t)).
  rewrite passedPrompts_app, Hf, IH, app_nil_r.
  unfold passedPrompts at 1. cbn [flat_map].
  destruct (isUserPrompt (fst t)); reflexivity.
Qed.

Lemma filter_idem (l : list section) :
  filter isUserPrompt (filter isUserPrompt l) = filter isUserPrompt l.
Proof.
  induction l as [|s l IH]; [reflexivity|]. cbn [filter].
  destruct (isUserPrompt s) eqn:E; [|exact IH].
  cbn [filter]. now rewrite E, IH.
Qed.

(** X6: both mergers pass on the user prompts of the section list, all of
    them, as they are and in their order; no other section is passed on as
    a user prompt. *)
Theorem X6_user_prompts_kept sections :
  passedPrompts (Modular.mergeSections sections) =
    filter isUserPrompt sections /\
  passedPrompts (Legacy.mergeSections sections) =
    filter isUserPrompt sections.
Proof.
  split.
  - rewrite modular_mergeSections_turns, passedPrompts_app,
      passedPrompts_modularTurn.
    cbn [app]. unfold modularTurnOf.
    rewrite (passedPrompts_turns modularTurn) by apply passedPrompts_modularTurn.
    now rewrite turns_prompts, filter_idem.
  - rewrite legacy_mergeSections_turns, passedPrompts_app.
    rewrite passedPrompts_orphans by apply orphans_no_prompt.
    cbn [app]. unfold legacyTurn.
    rewrite (passedPrompts_turns Legacy.fuse) by apply passedPrompts_fuse.
    now rewrite turns_prompts, filter_idem.
Qed.

(** ** The fused body, in closed form *)

Lemma flushLoop_alternate cs : forall acts fc fa,
  Modular.flushLoop cs acts fc fa =
  (fc ++ alternate cs (map placeholder (seq (length fa) (length acts))),
   fa ++ acts).
Proof.
  induction cs as [|c cs IH]; intros acts fc fa; cbn [Modular.flushLoop].
  - apply flushActions_eq.
  - destruct acts as [|a acts].
    + rewrite flushLoop_texts, <- app_assoc, app_nil_r. reflexivity.
    + rewrite IH, length_app, Nat.add_1_r, <- !app_assoc. reflexivity.
Qed.

Lemma modularTurn_alternating turn : modularTurn turn = alternatingTurn turn.
Proof.
  unfold modularTurn, alternatingTurn, tokens. rewrite flushed_eq.
  rewrite flushLoop_alternate. cbn [fst snd app length].
  destruct (responseTexts turn), (toolActions turn); reflexivity.
Qed.

Lemma modular_alternating sections :
  Modular.mergeSections sections =
  alternatingTurn (orphans sections) ++
  flat_map (fun turn => Passed (fst turn) :: alternatingTurn (snd turn))
           (turns sections).
Proof.
  rewrite modular_mergeSections_turns, modularTurn_alternating. f_equal.
  rewrite !flat_map_concat_map. f_equal. apply map_ext.
  intros turn. unfold modularTurnOf. now rewrite modularTurn_alternating.
Qed.

Lemma alternate_nil texts toks :
  alternate texts toks = [] -> texts = [] /\ toks = [].
Proof.
  destruct texts as [|t texts]; cbn [alternate]; [now intros ->|].
  destruct toks; discriminate.
Qed.

Lemma alternatingTurn_fused turn : Forall promptOrFused (alternatingTurn turn).
Proof.
  unfold alternatingTurn.
  destruct (responseTexts turn) as [|t texts] eqn:Et,
           (toolActions turn) as [|a acts] eqn:Ea;
    [constructor|..]; (constructor; [|constructor]);
    cbn [promptOrFused]; intros H; apply alternate_nil in H;
    destruct H as [H1 H2]; try discriminate H1; discriminate H2.
Qed.

Lemma turns_fst_prompt sections :
  Forall (fun turn => type (fst turn) = user_prompt) (turns sections).
Proof.
  induction sections as [|s sections IH]; [constructor|].
  unfold turns. rewrite splitTurns_cons.
  destruct (isUserPrompt s) eqn:E; cbn [snd]; [|exact IH].
  constructor; [|exact IH]. cbn [fst]. now apply section_type_eqb_eq.
Qed.

(** X7: what the modular merger returns holds nothing but user prompts
    passed on and fused responses, and no fused response has an empty body:
    no ['unknown'], ['agent-action'] or single ['agent-response'] section is
    left in it. *)
Theorem X7_modular_output_shape sections :
  Forall promptOrFused (Modular.mergeSections sections).
Proof.
  rewrite modular_alternating. apply Forall_app. split.
  - apply alternatingTurn_fused.
  - pose proof (turns_fst_prompt sections) as Hp.
    induction Hp as [|turn ts Hturn _ IH]; [constructor|].
    cbn [flat_map]. constructor; [exact Hturn|].
    apply Forall_app. split; [apply alternatingTurn_fused | exact IH].
Qed.

Lemma fusedActionsOf_app a b :
  fusedActionsOf (a ++ b) = fusedActionsOf a ++ fusedActionsOf b.
Proof. apply flat_map_app. Qed.

Lemma fusedActionsOf_alternating turn :
  fusedActionsOf (alternatingTurn turn) = toolActions turn.
Proof.
  unfold alternatingTurn.
  destruct (responseTexts turn), (toolActions turn);
    unfold fusedActionsOf; cbn [flat_map]; now rewrite ?app_nil_r.
Qed.

Lemma prompt_not_action s :
  isUserPrompt s = true -> isKind agent_action s = false.
Proof.
  unfold isUserPrompt, isKind. now destruct (type s).
Qed.

Lemma prompt_not_response s :
  isUserPrompt s = true -> isKind agent_response s = false.
Proof.
  unfold isUserPrompt, isKind. now destruct (type s).
Qed.

(** X8: the modular merger loses no tool action and invents none: the
    actions lists of its fused responses, put end to end, are the
    ['agent-action'] sections of the input, as they are and in their
    order (those met before the first user prompt included). *)
Theorem X8_modular_actions_kept sections :
  fusedActionsOf (Modular.mergeSections sections) = toolActions sections.
Proof.
  rewrite modular_alternating, fusedActionsOf_app, fusedActionsOf_alternating.
  induction sections as [|s sections IH]; [reflexivity|].
  unfold orphans, turns in *. rewrite splitTurns_cons, toolActions_cons.
  destruct (isUserPrompt s) eqn:E; cbn [fst snd flat_map].
  - change (Passed s :: ?l) with ([Passed s] ++ l).
    rewrite !fusedActionsOf_app, fusedActionsOf_alternating.
    assert (Hs : type s = user_prompt) by now apply section_type_eqb_eq.
    rewrite Hs. cbn [toolActions filter app]. exact IH.
  - rewrite toolActions_cons.
    assert (Hs : type s <> user_prompt).
    { intros H. apply section_type_eqb_eq in H.
      unfold isUserPrompt in E. congruence. }
    destruct (type s); try congruence; cbn [app]; [exact IH | exact IH | f_equal; exact IH].
Qed.

Lemma fusedTextsOf_app a b :
  fusedTextsOf (a ++ b) = fusedTextsOf a ++ fusedTextsOf b.
Proof. apply flat_map_app. Qed.

Lemma filter_tokens l :
  filter (fun e => negb (isPlaceholder e)) (map placeholder l) = [].
Proof.
  induction l as [|n l IH]; [reflexivity|].
  cbn [map filter]. now rewrite isPlaceholder_placeholder.
Qed.

Lemma filter_texts texts :
  Forall (fun c => isPlaceholder c = false) texts ->
  filter (fun e => negb (isPlaceholder e)) texts = texts.
Proof.
  induction 1 as [|t texts Ht _ IH]; [reflexivity|].
  cbn [filter]. now rewrite Ht, IH.
Qed.

Lemma filter_alternate texts : forall l,
  Forall (fun c => isPlaceholder c = false) texts ->
  filter (fun e => negb (isPlaceholder e)) (alternate texts (map placeholder l))
  = texts.
Proof.
  induction texts as [|t texts IH]; intros l H; cbn [alternate].
  - apply filter_tokens.
  - destruct l as [|n l]; cbn [map]; [now apply filter_texts|].
    inversion H as [|? ? Ht Hrest]; subst.
    cbn [filter]. rewrite Ht, isPlaceholder_placeholder. cbn [negb].
    f_equal. now apply IH.
Qed.

Lemma fusedTextsOf_alternating turn :
  Forall (fun c => isPlaceholder c = false) (responseTexts turn) ->
  fusedTextsOf (alternatingTurn turn) = responseTexts turn.
Proof.
  intros H. unfold alternatingTurn, tokens.
  destruct (responseTexts turn) as [|t texts] eqn:Et,
           (toolActions turn) as [|a acts] eqn:Ea;
    [reflexivity|..]; unfold fusedTextsOf; cbn [flat_map];
    rewrite app_nil_r; now apply filter_alternate.
Qed.

Lemma texts_of_part sections part :
  noPlaceholderText sections ->
  (forall s, In s part -> In s sections) ->
  Forall (fun c => isPlaceholder c = false) (responseTexts part).
Proof.
  intros Hno Hsub. apply responseTexts_not_placeholder.
  apply Forall_forall. intros s Hin. apply Hno. now apply Hsub.
Qed.

Lemma orphans_texts sections :
  noPlaceholderText sections ->
  Forall (fun c => isPlaceholder c = false) (responseTexts (orphans sections)).
Proof.
  intros Hno. eapply texts_of_part; [exact Hno|].
  intros s Hin. now apply (proj1 (splitTurns_In sections)).
Qed.

Lemma turns_texts sections :
  noPlaceholderText sections ->
  responseTexts (orphans sections) ++
  fusedTextsOf
    (flat_map (fun turn => Passed (fst turn) :: alternatingTurn (snd turn))
              (turns sections)) =
  responseTexts sections.
Proof.
  induction sections as [|s sections IH]; intros Hno; [reflexivity|].
  assert (Hno' : noPlaceholderText sections).
  { intros x Hin. apply Hno. now right. }
  specialize (IH Hno').
  unfold orphans, turns in *. rewrite splitTurns_cons.
  rewrite (responseTexts_cons s sections).
  destruct (isUserPrompt s) eqn:E; cbn [fst snd flat_map].
  - change (Passed s :: ?l) with ([Passed s] ++ l).
    rewrite !fusedTextsOf_app, fusedTextsOf_alternating
      by apply (orphans_texts Hno').
    assert (Hs : type s = user_prompt) by now apply section_type_eqb_eq.
    rewrite Hs. exact IH.
  - rewrite responseTexts_cons.
    destruct (type s); cbn [app]; [exact IH | exact IH | f_equal; exact IH
                                  | exact IH].
Qed.

(** X9: when no agent response has a placeholder token as its text, the
    modular merger loses no agent text and invents none: the entries of its
    fused bodies that are not placeholder tokens, put end to end, are the
    texts of the ['agent-response'] sections of the input, in their order. *)
Theorem X9_modular_texts_kept sections :
  noPlaceholderText sections ->
  fusedTextsOf (Modular.mergeSections sections) = responseTexts sections.
Proof.
  intros Hno.
  rewrite modular_alternating, fusedTextsOf_app, fusedTextsOf_alternating
    by apply (orphans_texts Hno).
  now apply turns_texts.
Qed.

Lemma X9_modular_texts_kept_witness :
  fusedTextsOf
    (Modular.mergeSections
       [response "early"; prompt "hi"; response "a"; response "b";
        action "Read [](file:///x)"; response "Done."]) =
  responseTexts
    [response "early"; prompt "hi"; response "a"; response "b";
     action "Read [](file:///x)"; response "Done."].
Proof.
  apply X9_modular_texts_kept.
  intros s Hin Ht.
  repeat (destruct Hin as [<-|Hin]; [vm_compute; reflexivity|]).
  destruct Hin.
Defined.

(** X10: the modular merger in closed form.  The sections before the first
    user prompt and the sections of every turn are fused apart; a turn
    without agent response and action gives nothing; otherwise its body
    takes the texts and the placeholder tokens in turn, a text first, until
    one list runs out, then what is left of the other. *)
Theorem X10_modular_closed_form sections :
  Modular.mergeSections sections =
  alternatingTurn (orphans sections) ++
  flat_map (fun turn => Passed (fst turn) :: alternatingTurn (snd turn))
           (turns sections).
Proof. apply modular_alternating. Qed.

(** X11: the legacy merger in closed form.  The sections before the first
    user prompt are passed on as they are; every user prompt is passed on
    and followed, if its turn has a section, by one fused response whose
    body lists the texts and the placeholder tokens in the order met and
    whose actions are the tool actions of the turn. *)
Theorem X11_legacy_closed_form sections :
  Legacy.mergeSections sections =
  map Passed (orphans sections) ++
  flat_map (fun turn => Passed (fst turn) :: orderedTurn (snd turn))
           (turns sections).
Proof.
  rewrite legacy_mergeSections_turns. f_equal.
  rewrite !flat_map_concat_map. f_equal. apply map_ext.
  intros turn. unfold legacyTurn, orderedTurn. now rewrite legacy_fuse_eq.
Qed.

End MergerProps.

(* ------------------------------------------------------------------------- *)
(** * Further properties of the transforms *)
(* ------------------------------------------------------------------------- *)

Module TransformerProps.

Import Transformers Spec Further TransformerFacts.

(** ** Blank-line compaction *)

Lemma startsWith_cons c t d p :
  startsWith (String c t) (String d p) = Ascii.eqb d c && startsWith t p.
Proof.
  unfold startsWith. cbn [String.prefix].
  destruct (ascii_dec d c) as [->|Hne].
  - now rewrite Ascii.eqb_refl.
  - apply Ascii.eqb_neq in Hne. now rewrite Hne.
Qed.

Lemma startsWith_nil_l d p : startsWith "" (String d p) = false.
Proof. reflexivity. Qed.

Lemma startsWith_nil_r s : startsWith s "" = true.
Proof. now destruct s. Qed.

Lemma eqb_LF c : Ascii.eqb LF c = Ascii.eqb c LF.
Proof. apply Ascii.eqb_sym. Qed.

Lemma append_nil_r (s : string) : (s ++ "")%string = s.
Proof. induction s as [|c s IH]; simpl; congruence. Qed.

Lemma runs_lineFeeds run c text :
  Ascii.eqb c LF = false ->
  runsAtMostTwo 0 (lineFeeds run ++ String c text) = runsAtMostTwo 0 text.
Proof.
  intros E. unfold lineFeeds, nl.
  destruct run as [|[|[|run]]];
    cbn [Nat.leb repeatChar append runsAtMostTwo andb];
    rewrite ?Ascii.eqb_refl, E; reflexivity.
Qed.

Lemma replaceRuns_ok text : forall run,
  runsAtMostTwo 0 (replaceRuns run text) = true.
Proof.
  induction text as [|c text IH]; intros run; cbn [replaceRuns].
  - unfold lineFeeds, nl.
    destruct run as [|[|[|run]]];
      cbn [Nat.leb repeatChar append runsAtMostTwo andb];
      rewrite ?Ascii.eqb_refl; reflexivity.
  - destruct (Ascii.eqb c LF) eqn:E; [apply IH|].
    rewrite runs_lineFeeds by assumption. apply IH.
Qed.

Lemma repeatChar_snoc c n s :
  (repeatChar c (S n) ++ s = repeatChar c n ++ String c s)%string.
Proof.
  induction n as [|n IH]; [reflexivity|].
  cbn [repeatChar append] in *. now rewrite IH.
Qed.

Lemma replaceRuns_same text : forall run,
  run <= 2 -> runsAtMostTwo run text = true ->
  replaceRuns run text = (repeatChar LF run ++ text)%string.
Proof.
  induction text as [|c text IH]; intros run Hrun H;
    cbn [replaceRuns runsAtMostTwo] in *.
  - unfold lineFeeds. destruct (Nat.leb 3 run) eqn:E.
    + apply Nat.leb_le in E. lia.
    + now rewrite append_nil_r.
  - destruct (Ascii.eqb c LF) eqn:E.
    + apply Ascii.eqb_eq in E. subst c.
      apply andb_true_iff in H. destruct H as [Hle H].
      apply Nat.leb_le in Hle.
      rewrite IH by assumption. apply repeatChar_snoc.
    + unfold lineFeeds. destruct (Nat.leb 3 run) eqn:E3.
      * apply Nat.leb_le in E3. lia.
      * rewrite (IH 0) by (assumption || lia). reflexivity.
Qed.

(** Runs of at most two line feeds, said with [includes]. *)
Lemma runs_includes text :
  runsAtMostTwo 0 text = negb (includes text tripleFeed) /\
  runsAtMostTwo 1 text =
    negb (startsWith text (String LF (String LF ""))) &&
    negb (includes text tripleFeed) /\
  runsAtMostTwo 2 text =
    negb (startsWith text (String LF "")) && negb (includes text tripleFeed).
Proof.
  induction text as [|c text (IH0 & IH1 & IH2)]; [repeat split|].
  rewrite (MainFacts.includes_unfold (String c text)).
  unfold tripleFeed in *. rewrite !startsWith_cons, !startsWith_nil_r.
  cbn [runsAtMostTwo Nat.leb]. rewrite eqb_LF.
  destruct (Ascii.eqb c LF) eqn:E; cbn [andb orb negb].
  - rewrite IH1, IH2. repeat split.
    + now rewrite negb_orb.
    + clear IH0 IH1 IH2. destruct text as [|d text]; [reflexivity|].
      rewrite !startsWith_cons, !startsWith_nil_r.
      destruct (Ascii.eqb LF d); cbn [andb orb negb]; reflexivity.
  - rewrite IH0. repeat split.
Qed.

(** X12: after the blank-line compaction no three line feeds in a row are
    left, that is no two blank lines in a row. *)
Theorem X12_no_triple_line_feed_left text :
  includes (cleanExcessiveLineBreaks text) tripleFeed = false.
Proof.
  pose proof (replaceRuns_ok text 0) as H.
  rewrite (proj1 (runs_includes _)) in H.
  now apply negb_true_iff in H.
Qed.

(** X13: the compaction leaves a text as it is exactly when the text has no
    three line feeds in a row; so a second compaction changes nothing. *)
Theorem X13_compaction_fixed_points text :
  (cleanExcessiveLineBreaks text = text <->
   includes text tripleFeed = false) /\
  cleanExcessiveLineBreaks (cleanExcessiveLineBreaks text) =
  cleanExcessiveLineBreaks text.
Proof.
  assert (Hfix : forall t, runsAtMostTwo 0 t = true ->
                           cleanExcessiveLineBreaks t = t).
  { intros t H. unfold cleanExcessiveLineBreaks.
    now rewrite replaceRuns_same by (assumption || lia). }
  split; [split|].
  - intros H. pose proof (replaceRuns_ok text 0) as Hok.
    fold (cleanExcessiveLineBreaks text) in Hok. rewrite H in Hok.
    rewrite (proj1 (runs_includes _)) in Hok.
    now apply negb_true_iff in Hok.
  - intros H. apply Hfix. rewrite (proj1 (runs_includes _)), H. reflexivity.
  - apply Hfix, replaceRuns_ok.
Qed.

Lemma withoutLineFeeds_app a b :
  withoutLineFeeds (a ++ b) =
  (withoutLineFeeds a ++ withoutLineFeeds b)%string.
Proof.
  induction a as [|c a IH]; [reflexivity|].
  cbn [append withoutLineFeeds]. rewrite IH.
  now destruct (Ascii.eqb c LF).
Qed.

Lemma withoutLineFeeds_repeat n : withoutLineFeeds (repeatChar LF n) = "".
Proof.
  induction n as [|n IH]; [reflexivity|].
  cbn [repeatChar withoutLineFeeds]. now rewrite Ascii.eqb_refl.
Qed.

Lemma lineFeeds_feeds run :
  exists n, lineFeeds run = repeatChar LF n /\ n <= run.
Proof.
  unfold lineFeeds. destruct (Nat.leb 3 run) eqn:E.
  - apply Nat.leb_le in E. exists 2. split; [reflexivity | lia].
  - exists run. split; [reflexivity | lia].
Qed.

Lemma length_append (a b : string) :
  String.length (a ++ b) = String.length a + String.length b.
Proof. induction a as [|c a IH]; simpl; [reflexivity | now rewrite IH]. Qed.

Lemma length_repeatChar c n : String.length (repeatChar c n) = n.
Proof. induction n as [|n IH]; simpl; [reflexivity | now rewrite IH]. Qed.

Lemma replaceRuns_deletes text : forall run,
  withoutLineFeeds (replaceRuns run text) = withoutLineFeeds text /\
  String.length (replaceRuns run text) <= run + String.length text.
Proof.
  induction text as [|c text IH]; intros run; cbn [replaceRuns].
  - destruct (lineFeeds_feeds run) as (n & -> & Hn).
    rewrite withoutLineFeeds_repeat, length_repeatChar.
    split; [reflexivity | cbn [String.length]; lia].
  - destruct (Ascii.eqb c LF) eqn:E.
    + destruct (IH (S run)) as [H1 H2].
      cbn [withoutLineFeeds String.length]. rewrite E.
      split; [assumption | lia].
    + destruct (IH 0) as [H1 H2].
      destruct (lineFeeds_feeds run) as (n & -> & Hn).
      rewrite withoutLineFeeds_app, withoutLineFeeds_repeat, length_append,
        length_repeatChar.
      cbn [withoutLineFeeds append String.length]. rewrite E, H1.
      split; [reflexivity | lia].
Qed.

(** X14: the compaction only deletes line feeds: with the line feeds set
    aside, its output is its input, and the output is never longer. *)
Theorem X14_compaction_only_deletes_feeds text :
  withoutLineFeeds (cleanExcessiveLineBreaks text) = withoutLineFeeds text /\
  String.length (cleanExcessiveLineBreaks text) <= String.length text.
Proof. apply (replaceRuns_deletes text 0). Qed.

(** ** Line transformers *)

Lemma transformFrom_length fs lines : forall icb index prevLine,
  length (transformFrom fs icb index prevLine lines) = length lines.
Proof.
  induction lines as [|line rest IH]; intros icb index prev; [reflexivity|].
  cbn [transformFrom length]. now rewrite IH.
Qed.

(** What a line transformer does to every line, it does to the lines of
    the text. *)
Lemma transformFrom_Forall2 (T : transformer) (R : string -> string -> Prop) :
  (forall line context, trimmedLine context = trim line ->
                        R line (T line context)) ->
  forall lines icb index prevLine,
    Forall2 R lines (transformFrom [T] icb index prevLine lines).
Proof.
  intros HT. induction lines as [|line rest IH]; intros icb index prev;
    [constructor|].
  cbn [transformFrom fold_left]. constructor; [|apply IH].
  now apply HT.
Qed.

Lemma transformLines_lines (T : transformer) text :
  (forall line context, trimmedLine context = trim line ->
     noLineFeed line = true -> noLineFeed (T line context) = true) ->
  splitLines (transformLines text [T]) =
  transformFrom [T] false 0 "" (splitLines text).
Proof.
  intros HT. unfold transformLines. apply splitLines_joinLines.
  - apply transformFrom_not_nil, splitLines_not_nil.
  - apply transformFrom_noLineFeed; [exact HT | apply splitLines_noLineFeed].
Qed.

Lemma trimEnd_noLineFeed s :
  noLineFeed s = true -> noLineFeed (trimEnd s) = true.
Proof.
  induction s as [|c s IH]; [reflexivity|].
  cbn [noLineFeed trimEnd]. intros H.
  apply andb_true_iff in H. destruct H as [Hc Hs]. specialize (IH Hs).
  destruct (trimEnd s) as [|d t].
  - destruct (isSpace c); [reflexivity|]. cbn [noLineFeed]. now rewrite Hc.
  - change (noLineFeed (String c (String d t)))
      with (negb (Ascii.eqb c LF) && noLineFeed (String d t)).
    now rewrite Hc, IH.
Qed.

Lemma removeTrailingSpace_cases line context :
  removeTrailingSpace line context = line \/
  removeTrailingSpace line context = trimEnd line.
Proof.
  unfold removeTrailingSpace.
  repeat match goal with
         | |- context [if ?b then _ else _] => destruct b
         end; auto.
Qed.

Lemma removeTrailingSpace_noLineFeed line context :
  noLineFeed line = true ->
  noLineFeed (removeTrailingSpace line context) = true.
Proof.
  intros H.
  destruct (removeTrailingSpace_cases line context) as [-> | ->];
    [assumption | now apply trimEnd_noLineFeed].
Qed.

(** X15: the heading shift, the forced line breaks and the trailing-space
    cleaner work line by line: each gives back as many lines as it was
    given. *)
Theorem X15_line_transforms_keep_line_count text :
  length (splitLines (shiftHeadingLevels text)) = length (splitLines text) /\
  length (splitLines (forceLineBreaks text)) = length (splitLines text) /\
  length (splitLines (removeTrailingSpaces text)) = length (splitLines text).
Proof.
  unfold shiftHeadingLevels, forceLineBreaks, removeTrailingSpaces.
  repeat split; rewrite transformLines_lines, ?transformFrom_length;
    try reflexivity.
  - apply shiftHeadingLevel_noLineFeed.
  - intros line context _. apply addLineBreak_noLineFeed.
  - intros line context _. apply removeTrailingSpace_noLineFeed.
Qed.

(** ** The heading shift *)

Lemma spanWhile_fst_snd p s :
  spanWhile p (snd (spanWhile p s)) = ("", snd (spanWhile p s)).
Proof.
  induction s as [|c s IH]; [reflexivity|].
  cbn [spanWhile]. destruct (p c) eqn:E.
  - destruct (spanWhile p s) as [a b]. exact IH.
  - cbn [snd spanWhile]. now rewrite E.
Qed.

Lemma spanWhile_repeat p c n rest :
  p c = true -> fst (spanWhile p rest) = "" ->
  spanWhile p (repeatChar c n ++ rest) = (repeatChar c n, rest).
Proof.
  intros Hc Hrest. induction n as [|n IH].
  - cbn [repeatChar append].
    destruct rest as [|d rest]; [reflexivity|].
    cbn [spanWhile] in *. destruct (p d); [|reflexivity].
    destruct (spanWhile p rest). discriminate.
  - cbn [repeatChar append spanWhile]. now rewrite Hc, IH.
Qed.

Lemma headingMatch_parts s level headingText :
  headingMatch s = Some (level, headingText) ->
  1 <= level <= 6 /\
  spanWhile isSpace headingText = ("", headingText) /\
  snd (spanWhile isDot headingText) = "".
Proof.
  unfold headingMatch.
  destruct (spanWhile (Ascii.eqb "#") s) as [hashes rest].
  destruct (Nat.leb 1 (String.length hashes) &&
            Nat.leb (String.length hashes) 6) eqn:El; [|discriminate].
  apply andb_true_iff in El. destruct El as [E1 E6].
  apply Nat.leb_le in E1, E6.
  pose proof (spanWhile_fst_snd isSpace rest) as Hs.
  destruct (spanWhile isSpace rest) as [spaces text]. cbn [snd] in Hs.
  destruct spaces; [discriminate|].
  destruct (spanWhile isDot text) as [dots tail] eqn:Ed.
  destruct tail; [|discriminate].
  intros H. injection H as <- <-. rewrite Ed. auto.
Qed.

(** X16: outside a code block, a line whose white space is all ASCII and
    that is a heading of level [k] comes out of the heading shift as a
    heading of level [k + 1] with the same heading text; a heading of
    level 6 stays at level 6. *)
Theorem X16_heading_one_level_down line context level headingText :
  plainSpaced (trimmedLine context) = true ->
  inCodeBlock context = false ->
  headingMatch (trimmedLine context) = Some (level, headingText) ->
  headingMatch (shiftHeadingLevel line context) =
  Some (Nat.min (level + 1) 6, headingText).
Proof.
  intros _ Hout Hm. unfold shiftHeadingLevel. rewrite Hout, Hm.
  destruct (headingMatch_parts _ Hm) as (Hl & Hs & Hd).
  unfold headingMatch.
  rewrite spanWhile_repeat; [|reflexivity|reflexivity].
  rewrite length_repeatChar.
  assert (E : Nat.leb 1 (Nat.min (level + 1) 6) &&
              Nat.leb (Nat.min (level + 1) 6) 6 = true).
  { apply andb_true_iff. split; apply Nat.leb_le; lia. }
  rewrite E. cbn [append spanWhile].
  change (isSpace " ") with true. cbn iota. rewrite Hs.
  destruct (spanWhile isDot headingText) as [dots tail].
  cbn [snd] in Hd. now subst tail.
Qed.

Lemma X16_heading_one_level_down_witness :
  headingMatch
    (shiftHeadingLevel "###### Deep"
       (mkContext false 0 "" "" "###### Deep" "" "")) =
  Some (Nat.min (6 + 1) 6, "Deep").
Proof.
  apply X16_heading_one_level_down; reflexivity.
Defined.

(** ** Forced line breaks *)

(** X17: the forced line breaks only ever append two spaces to a line:
    every line of the output is the line of the input at the same place,
    as it is or with two spaces after it, and a blank line is left as it
    is. *)
Theorem X17_line_breaks_only_append text :
  Forall2 (fun line out =>
             out = line \/
             out = (line ++ "  ")%string /\ trim line <> "")
          (splitLines text) (splitLines (forceLineBreaks text)).
Proof.
  unfold forceLineBreaks. rewrite transformLines_lines
    by (intros line context _; apply addLineBreak_noLineFeed).
  apply transformFrom_Forall2. intros line context Ht.
  unfold addLineBreak. rewrite Ht.
  destruct (inCodeBlock context); [now left|].
  destruct (String.eqb (trim line) "") eqn:E; cbn [orb]; [now left|].
  apply String.eqb_neq in E.
  repeat match goal with
         | |- context [if ?b then _ else _] => destruct b
         end; auto.
Qed.

(** ** Trailing spaces *)

Lemma transformFrom_trailing lines : forall icb index prevLine,
  transformFrom [removeTrailingSpace] icb index prevLine lines =
  LegacyTransforms.trailingFrom lines.
Proof.
  induction lines as [|line rest IH]; intros icb index prev; [reflexivity|].
  cbn [transformFrom fold_left LegacyTransforms.trailingFrom].
  rewrite IH. f_equal.
Qed.

(** X18: the trailing-space cleaner of the monolithic script and the one of
    the transformer library give the same text for every input. *)
Theorem X18_trailing_space_cleaners_agree text :
  LegacyTransforms.removeTrailingSpaces text = removeTrailingSpaces text.
Proof.
  unfold LegacyTransforms.removeTrailingSpaces, removeTrailingSpaces,
    transformLines.
  now rewrite transformFrom_trailing.
Qed.

Lemma isSpace_space c : isSpace c = false -> Ascii.eqb c " " = false.
Proof.
  intros H. destruct (Ascii.eqb c " ") eqn:E; [|reflexivity].
  apply Ascii.eqb_eq in E. subst c. discriminate H.
Qed.

Lemma endsWithSpace_trimEnd s : endsWithSpace (trimEnd s) = false.
Proof.
  induction s as [|c s IH]; [reflexivity|].
  cbn [trimEnd]. destruct (trimEnd s) as [|d t].
  - destruct (isSpace c) eqn:E; [reflexivity|].
    cbn [endsWithSpace]. now apply isSpace_space.
  - exact IH.
Qed.

Lemma trimEnd_idem s : trimEnd (trimEnd s) = trimEnd s.
Proof.
  induction s as [|c s IH]; [reflexivity|].
  cbn [trimEnd]. destruct (trimEnd s) as [|d t] eqn:E.
  - destruct (isSpace c) eqn:Ec; [reflexivity|].
    cbn [trimEnd]. now rewrite Ec.
  - change (trimEnd (String c (String d t)))
      with (match trimEnd (String d t) with
            | "" => if isSpace c then "" else String c ""
            | String _ _ as u => String c u
            end).
    now rewrite IH.
Qed.

Lemma trimStart_trimEnd s : trimStart (trimEnd s) = trimEnd (trimStart s).
Proof.
  induction s as [|c s IH]; [reflexivity|].
  cbn [trimStart]. destruct (isSpace c) eqn:Ec.
  - rewrite <- IH. cbn [trimEnd].
    destruct (trimEnd s) as [|d t]; rewrite ?Ec; [reflexivity|].
    cbn [trimStart]. now rewrite Ec.
  - cbn [trimEnd]. destruct (trimEnd s) as [|d t]; rewrite ?Ec;
      cbn [trimStart]; now rewrite Ec.
Qed.

Lemma trim_trimEnd s : trim (trimEnd s) = trim s.
Proof. unfold trim. now rewrite trimStart_trimEnd, trimEnd_idem. Qed.

Lemma trailingFrom_next rest :
  trim (nextOf (LegacyTransforms.trailingFrom rest)) = trim (nextOf rest).
Proof.
  destruct rest as [|n rest]; [reflexivity|].
  cbn [LegacyTransforms.trailingFrom nextOf].
  repeat match goal with
         | |- context [if ?b then _ else _] => destruct b
         end; auto using trim_trimEnd.
Qed.

Lemma trailingFrom_clean lines :
  trailingSpacesClean (LegacyTransforms.trailingFrom lines) = true.
Proof.
  induction lines as [|line rest IH]; [reflexivity|].
  cbn [LegacyTransforms.trailingFrom trailingSpacesClean].
  rewrite IH, andb_true_r, trailingFrom_next.
  fold (nextOf rest).
  destruct (endsWithSpace line) eqn:E1; cbn [negb andb].
  - destruct (endsWithTwoSpaces line) eqn:E2; cbn [negb andb].
    + destruct (String.eqb (trim (nextOf rest)) "") eqn:E3.
      * now rewrite endsWithSpace_trimEnd.
      * now rewrite E1, E2.
    + now rewrite endsWithSpace_trimEnd.
  - now rewrite E1.
Qed.

Lemma trailingFrom_fixed lines :
  trailingSpacesClean lines = true ->
  LegacyTransforms.trailingFrom lines = lines.
Proof.
  induction lines as [|line rest IH]; [reflexivity|].
  cbn [LegacyTransforms.trailingFrom trailingSpacesClean].
  fold (nextOf rest). intros H.
  apply andb_true_iff in H. destruct H as [H Hrest].
  rewrite (IH Hrest). f_equal.
  destruct (endsWithSpace line); cbn [negb orb andb] in *; [|reflexivity].
  apply andb_true_iff in H. destruct H as [H2 H3].
  rewrite H2. apply negb_true_iff in H3. now rewrite H3.
Qed.

Lemma trailingFrom_noLineFeed lines :
  Forall (fun l => noLineFeed l = true) lines ->
  Forall (fun l => noLineFeed l = true) (LegacyTransforms.trailingFrom lines).
Proof.
  induction 1 as [|line rest Hl _ IH]; [constructor|].
  cbn [LegacyTransforms.trailingFrom]. constructor; [|exact IH].
  repeat match goal with
         | |- context [if ?b then _ else _] => destruct b
         end; auto using trimEnd_noLineFeed.
Qed.

Lemma removeTrailingSpaces_lines text :
  splitLines (removeTrailingSpaces text) =
  LegacyTransforms.trailingFrom (splitLines text).
Proof.
  unfold removeTrailingSpaces, transformLines.
  rewrite transformFrom_trailing. apply splitLines_joinLines.
  - pose proof (splitLines_not_nil text).
    destruct (splitLines text); [congruence | discriminate].
  - apply trailingFrom_noLineFeed, splitLines_noLineFeed.
Qed.

(** X19: after the trailing-space cleaner every line ends without a space,
    or ends with two spaces and stands before a line that is not blank (a
    hard break); and a second cleaning changes nothing. *)
Theorem X19_trailing_spaces_cleaned text :
  trailingSpacesClean (splitLines (removeTrailingSpaces text)) = true /\
  removeTrailingSpaces (removeTrailingSpaces text) = removeTrailingSpaces text.
Proof.
  split.
  - rewrite removeTrailingSpaces_lines. apply trailingFrom_clean.
  - unfold removeTrailingSpaces at 1. unfold transformLines.
    rewrite transformFrom_trailing, removeTrailingSpaces_lines.
    rewrite trailingFrom_fixed by apply trailingFrom_clean.
    unfold removeTrailingSpaces, transformLines.
    now rewrite transformFrom_trailing.
Qed.

(** ** Structural spacing *)

Lemma spacingFrom_noLineFeed lines : forall prevLine,
  Forall (fun l => noLineFeed l = true) lines ->
  Forall (fun l => noLineFeed l = true) (spacingFrom prevLine lines).
Proof.
  induction lines as [|line rest IH]; intros prev H; [constructor|].
  inversion H; subst. cbn [spacingFrom].
  repeat (apply Forall_app; split); auto;
    repeat match goal with
           | |- context [if ?b then _ else _] => destruct b
           end; repeat constructor; auto.
Qed.

Lemma spacingFrom_not_nil lines prevLine :
  lines <> [] -> spacingFrom prevLine lines <> [].
Proof.
  destruct lines as [|line rest]; [congruence|]. intros _.
  cbn [spacingFrom]. intros H. apply app_eq_nil in H. destruct H as [_ H].
  discriminate H.
Qed.

Lemma ensureMarkdownSpacing_lines text :
  splitLines (ensureMarkdownSpacing text) = spacingFrom "" (splitLines text).
Proof.
  unfold ensureMarkdownSpacing. apply splitLines_joinLines.
  - apply spacingFrom_not_nil, splitLines_not_nil.
  - apply spacingFrom_noLineFeed, splitLines_noLineFeed.
Qed.

Lemma spacingFrom_nonEmpty lines : forall prevLine,
  nonEmptyLines (spacingFrom prevLine lines) = nonEmptyLines lines /\
  length lines <= length (spacingFrom prevLine lines).
Proof.
  induction lines as [|line rest IH]; intros prev; [split; reflexivity|].
  cbn [spacingFrom]. destruct (IH line) as [IH1 IH2].
  change (nonEmptyLines (line :: rest)) with (nonEmptyLines ([line] ++ rest)).
  unfold nonEmptyLines in *. rewrite !filter_app, !length_app, IH1.
  split.
  - repeat match goal with
           | |- context [if ?b then [""] else []] => destruct b
           end; reflexivity.
  - cbn [length]. lia.
Qed.

(** X20: the structural spacing only inserts empty lines: the lines of its
    output that are not empty are those of its input, in their order, and
    no line is taken away. *)
Theorem X20_spacing_only_inserts_empty_lines text :
  nonEmptyLines (splitLines (ensureMarkdownSpacing text)) =
    nonEmptyLines (splitLines text) /\
  length (splitLines text) <= length (splitLines (ensureMarkdownSpacing text)).
Proof.
  rewrite ensureMarkdownSpacing_lines. apply spacingFrom_nonEmpty.
Qed.

Lemma spacingFrom_next line rest :
  trim (nextOf rest) = "" ->
  trim (nextOf (spacingFrom line rest)) = "".
Proof.
  destruct rest as [|n rest]; [reflexivity|].
  cbn [nextOf spacingFrom]. intros H. rewrite H.
  change (isHeadingLine "") with false.
  change (isListItemLine "") with false.
  change (startsWith "" "```") with false.
  cbn [andb orb app nextOf]. exact H.
Qed.

Lemma spacingFrom_headings lines : forall prevLine,
  headingsSpaced (spacingFrom prevLine lines) = true.
Proof.
  induction lines as [|line rest IH]; intros prev; [reflexivity|].
  cbn [spacingFrom]. fold (nextOf rest).
  assert (Hline :
    headingsSpaced
      ([line] ++
       (if isHeadingLine (trim line) &&
           negb (String.eqb (trim (nextOf rest)) "")
        then [""] else []) ++ spacingFrom line rest) = true).
  { destruct (isHeadingLine (trim line)) eqn:Eh; cbn [andb].
    - destruct (String.eqb (trim (nextOf rest)) "") eqn:En; cbn [negb app].
      + cbn [headingsSpaced]. rewrite IH, andb_true_r, Eh. cbn [negb orb].
        apply String.eqb_eq in En.
        rewrite (spacingFrom_next line rest En). reflexivity.
      + cbn [headingsSpaced nextOf]. now rewrite IH, Eh.
    - cbn [app headingsSpaced]. now rewrite IH, Eh. }
  match goal with
  | |- context [if ?b then [""] else []] => destruct b
  end; [|exact Hline].
  cbn [app headingsSpaced] in *. now rewrite Hline.
Qed.

(** X21: after the structural spacing of a text whose white space is all
    ASCII, every heading line is the last line of the text or has a blank
    line right after it. *)
Theorem X21_headings_followed_by_blank_line text :
  plainSpaced text = true ->
  headingsSpaced (splitLines (ensureMarkdownSpacing text)) = true.
Proof.
  intros _. rewrite ensureMarkdownSpacing_lines. apply spacingFrom_headings.
Qed.

Lemma X21_headings_followed_by_blank_line_witness :
  headingsSpaced
    (splitLines
       (ensureMarkdownSpacing
          (joinLines ["intro"; "# Title"; "text"; "## Part"; "- item"]))) =
  true.
Proof.
  apply X21_headings_followed_by_blank_line. vm_compute. reflexivity.
Defined.

(** ** What the three document transforms keep *)

Lemma splitLines_app_feed a b :
  splitLines (a ++ String LF b) = splitLines a ++ splitLines b.
Proof.
  induction a as [|c a IH]; [reflexivity|].
  cbn [append splitLines]. rewrite IH.
  destruct (Ascii.eqb c LF); [reflexivity|].
  pose proof (splitLines_not_nil a).
  destruct (splitLines a); [congruence | reflexivity].
Qed.

Lemma spacingFrom_In line lines prevLine :
  line <> "" -> In line lines -> In line (spacingFrom prevLine lines).
Proof.
  intros Hne Hin.
  assert (H : In line (nonEmptyLines (spacingFrom prevLine lines))).
  { rewrite (proj1 (spacingFrom_nonEmpty lines prevLine)).
    apply filter_In. split; [assumption|].
    apply negb_true_iff. now apply String.eqb_neq. }
  now apply filter_In in H.
Qed.

Lemma trailingFrom_In line lines :
  endsWithSpace line = false -> In line lines ->
  In line (LegacyTransforms.trailingFrom lines).
Proof.
  intros He. induction lines as [|l rest IH]; intros Hin; [contradiction|].
  cbn [LegacyTransforms.trailingFrom]. destruct Hin as [->|Hin].
  - left. now rewrite He.
  - right. now apply IH.
Qed.

Lemma joinLines_includes line lines :
  In line lines -> includes (joinLines lines) line = true.
Proof.
  intros Hin. apply MainFacts.includes_iff.
  induction lines as [|l rest IH]; [contradiction|].
  unfold joinLines in *. destruct Hin as [->|Hin].
  - destruct rest as [|l' rest].
    + exists "", "". cbn [String.concat append]. now rewrite append_nil_r.
    + exists "", (nl ++ String.concat nl (l' :: rest))%string. reflexivity.
  - destruct rest as [|l' rest]; [contradiction|].
    destruct (IH Hin) as (pre & post & E).
    exists (l ++ nl ++ pre)%string, post.
    change (String.concat nl (l :: l' :: rest))
      with (l ++ nl ++ String.concat nl (l' :: rest))%string.
    rewrite E, !append_assoc. reflexivity.
Qed.

Lemma replaceRuns_app_text a c rest : forall run,
  Ascii.eqb c LF = false ->
  replaceRuns run (a ++ String c rest) =
  (replaceRuns run a ++ String c (replaceRuns 0 rest))%string.
Proof.
  induction a as [|d a IH]; intros run Hc; cbn [append replaceRuns].
  - now rewrite Hc.
  - destruct (Ascii.eqb d LF); [now apply IH|].
    rewrite IH by assumption. now rewrite append_assoc.
Qed.

Lemma cleanExcessiveLineBreaks_includes text p :
  p <> "" -> noLineFeed p = true -> includes text p = true ->
  includes (cleanExcessiveLineBreaks text) p = true.
Proof.
  intros Hne Hp Hin. apply MainFacts.includes_iff in Hin.
  destruct Hin as (pre & post & ->).
  destruct p as [|c p]; [congruence|].
  cbn [noLineFeed] in Hp. apply andb_true_iff in Hp. destruct Hp as [Hc Hp].
  apply negb_true_iff in Hc.
  unfold cleanExcessiveLineBreaks. cbn [append].
  rewrite replaceRuns_app_text, replaceRuns_text by assumption.
  apply MainFacts.includes_iff.
  exists (replaceRuns 0 pre), (replaceRuns 0 post). reflexivity.
Qed.

(** A line without line feed and without trailing space, not empty, that
    is in the text is still in it after the structural spacing, the
    trailing-space cleaner and the blank-line compaction. *)
Lemma linting_keeps_line text line :
  line <> "" -> noLineFeed line = true -> endsWithSpace line = false ->
  In line (splitLines text) ->
  includes
    (compose [ensureMarkdownSpacing; removeTrailingSpaces;
              cleanExcessiveLineBreaks] text) line = true.
Proof.
  intros Hne Hlf Hsp Hin. cbn [compose fold_left].
  apply cleanExcessiveLineBreaks_includes; try assumption.
  unfold removeTrailingSpaces, transformLines.
  rewrite transformFrom_trailing, ensureMarkdownSpacing_lines.
  apply joinLines_includes, trailingFrom_In; [assumption|].
  now apply spacingFrom_In.
Qed.

End TransformerProps.

(* ------------------------------------------------------------------------- *)
(** * Further properties of the main function and of what it calls *)
(* ------------------------------------------------------------------------- *)

Module MainProps.

Import Main Spec Further Examples TransformerFacts.

Lemma frontmatter_marker_line projectRoot inputFile processedDate rest :
  In PROCESSED
     (splitLines
        (generateFrontmatter projectRoot inputFile processedDate ++ rest)).
Proof.
  set (root := match projectRoot with
               | Some (String _ _ as root) => root
               | _ => "N/A"
               end).
  assert (E : (generateFrontmatter projectRoot inputFile processedDate ++ rest
               = ("---" ++ nl ++ "type: chat-session" ++ nl ++
                  "projectRoot: " ++ root ++ nl ++
                  "sourceFile: " ++ inputFile ++ nl ++
                  "processedDate: " ++ processedDate ++ nl ++ "---") ++
                 String LF (PROCESSED ++ String LF (nl ++ rest)))%string).
  { unfold generateFrontmatter. fold root.
    rewrite !append_assoc. reflexivity. }
  rewrite E, TransformerProps.splitLines_app_feed.
  apply in_or_app. right.
  rewrite splitLines_app_line by reflexivity. now left.
Qed.

(** A returned document holds the processed marker. *)
Lemma returned_is_processed
    (decodeURIComponent : string -> option string)
    (basename : string -> string) (processedDate : string)
    (content : string) (force silent : bool) (inputFile formatted : string) :
  processContent decodeURIComponent basename processedDate
    content force silent inputFile = Returned formatted ->
  isAlreadyProcessed formatted = true.
Proof.
  unfold processContent.
  destruct (isAlreadyProcessed content && negb force) eqn:E.
  - intros H. injection H as <-. apply andb_true_iff in E. tauto.
  - destruct (extractUserIdentifier (coreInput content force));
      [|now destruct silent].
    intros H. injection H as <-. unfold isAlreadyProcessed.
    apply TransformerProps.linting_keeps_line; try reflexivity;
      [discriminate|].
    apply frontmatter_marker_line.
Qed.

(** X22: idempotent execution.  Whatever the input and the options, a
    document that [processContent] returns holds the processed marker, so
    that handing it to [processContent] again without [force] gives it back
    as it is. *)
Theorem X22_returned_document_is_processed
    (decodeURIComponent : string -> option string)
    (basename : string -> string) (processedDate : string)
    (content : string) (force silent : bool) (inputFile : string) :
  match processContent decodeURIComponent basename processedDate
          content force silent inputFile with
  | Returned formatted =>
      isAlreadyProcessed formatted = true /\
      forall decodeURIComponent' basename' processedDate' silent' inputFile',
        processContent decodeURIComponent' basename' processedDate'
          formatted false silent' inputFile' = Returned formatted
  | ReturnedNull | Exited _ => True
  end.
Proof.
  destruct (processContent decodeURIComponent basename processedDate
              content force silent inputFile) as [formatted| |code] eqn:E;
    try exact I.
  pose proof (returned_is_processed _ _ _ _ _ _ _ E) as H.
  split; [assumption|]. intros. unfold processContent. now rewrite H.
Qed.

Lemma findUserIdentifier_none lines :
  existsb isAgentLine lines = false -> findUserIdentifier lines = None.
Proof.
  induction lines as [|l rest IH]; [reflexivity|].
  cbn [existsb findUserIdentifier]. intros H.
  apply orb_false_iff in H. destruct H as [_ H].
  fold isAgentLine. change (fun l' => startsWith (trim l') "GitHub Copilot:")
    with isAgentLine.
  rewrite H, (IH H). now destruct (identifierMatch (trim l)).
Qed.

(** X23: a text whose white space is all ASCII, that is not already
    processed and has no line that opens an agent turn ([GitHub Copilot:]
    after the leading white space) is not formatted: [processContent] ends
    the process with code 1, or returns [null] when it is silent. *)
Theorem X23_no_agent_line_no_document
    (decodeURIComponent : string -> option string)
    (basename : string -> string) (processedDate : string)
    (content : string) (force : bool) (inputFile : string) :
  plainSpaced content = true ->
  isAlreadyProcessed content = false ->
  existsb isAgentLine (splitLines content) = false ->
  processContent decodeURIComponent basename processedDate
    content force false inputFile = Exited 1 /\
  processContent decodeURIComponent basename processedDate
    content force true inputFile = ReturnedNull.
Proof.
  intros _ Hp Ha. unfold processContent, coreInput, extractUserIdentifier.
  rewrite Hp. cbn [andb]. now rewrite (findUserIdentifier_none _ Ha).
Qed.

Lemma X23_no_agent_line_no_document_witness :
  processContent (fun uri => Some uri) (fun name => name)
    "2025-11-13T14:00:00.000Z"
    (joinLines ["alice: hi"; "some notes"]) true false "notes.md" = Exited 1 /\
  processContent (fun uri => Some uri) (fun name => name)
    "2025-11-13T14:00:00.000Z"
    (joinLines ["alice: hi"; "some notes"]) true true "notes.md" = ReturnedNull.
Proof.
  apply X23_no_agent_line_no_document; vm_compute; reflexivity.
Defined.

Lemma spanWhile_parts p s :
  s = (fst (spanWhile p s) ++ snd (spanWhile p s))%string /\
  allChars p (fst (spanWhile p s)) = true.
Proof.
  induction s as [|c s [IH1 IH2]]; [split; reflexivity|].
  cbn [spanWhile]. destruct (p c) eqn:E; [|split; reflexivity].
  destruct (spanWhile p s) as [a b]. cbn [fst snd append allChars] in *.
  rewrite E, IH2. split; [now f_equal | reflexivity].
Qed.

Lemma identifierMatch_Some line identifier :
  identifierMatch line = Some identifier ->
  identifier <> "" /\
  allChars isIdentifierChar identifier = true /\
  startsWith line (identifier ++ ":") = true.
Proof.
  unfold identifierMatch.
  destruct (spanWhile_parts isIdentifierChar line) as [Hs Ha].
  destruct (spanWhile isIdentifierChar line) as [a rest].
  cbn [fst snd] in *.
  destruct a as [|x a]; [discriminate|].
  destruct rest as [|colon [|c rest]]; try discriminate.
  destruct (Ascii.eqb colon ":" && isSpace c) eqn:E; [|discriminate].
  intros H. injection H as <-.
  apply andb_true_iff in E. destruct E as [E _].
  apply Ascii.eqb_eq in E. subst colon.
  repeat split; [discriminate | assumption |].
  rewrite Hs.
  change (String x a ++ String ":" (String c rest))%string
    with (String x a ++ (":" ++ String c rest))%string.
  rewrite <- append_assoc. apply MergerFacts.startsWith_app.
Qed.

Lemma findUserIdentifier_Some lines identifier :
  findUserIdentifier lines = Some identifier ->
  identifier <> "" /\
  allChars isIdentifierChar identifier = true /\
  exists before line after,
    lines = before ++ line :: after /\
    startsWith (trim line) (identifier ++ ":") = true /\
    existsb isAgentLine after = true.
Proof.
  induction lines as [|l rest IH]; [discriminate|].
  cbn [findUserIdentifier].
  change (fun l' => startsWith (trim l') "GitHub Copilot:") with isAgentLine.
  assert (Hrest : findUserIdentifier rest = Some identifier ->
            identifier <> "" /\
            allChars isIdentifierChar identifier = true /\
            exists before line after,
              l :: rest = before ++ line :: after /\
              startsWith (trim line) (identifier ++ ":") = true /\
              existsb isAgentLine after = true).
  { intros H. destruct (IH H) as (H1 & H2 & before & line & after & -> & H3).
    repeat split; try assumption. now exists (l :: before), line, after. }
  destruct (identifierMatch (trim l)) as [found|] eqn:Em; [|exact Hrest].
  destruct (existsb isAgentLine rest) eqn:Ea; [|exact Hrest].
  intros H. injection H as ->.
  destruct (identifierMatch_Some _ Em) as (H1 & H2 & H3).
  repeat split; try assumption. now exists [], l, rest.
Qed.

(** X24: in a text whose white space is all ASCII, the user identifier that
    [extractUserIdentifier] detects is not empty, is made of letters,
    digits, [_] and [-] only, and opens a line of the text (after the
    leading white space, followed by a colon) that has a line opening an
    agent turn somewhere after it. *)
Theorem X24_detected_identifier_opens_a_turn content :
  plainSpaced content = true ->
  match extractUserIdentifier content with
  | Some identifier =>
      identifier <> "" /\
      allChars isIdentifierChar identifier = true /\
      exists before line after,
        splitLines content = before ++ line :: after /\
        startsWith (trim line) (identifier ++ ":") = true /\
        existsb isAgentLine after = true
  | None => True
  end.
Proof.
  intros _. unfold extractUserIdentifier.
  destruct (findUserIdentifier (splitLines content)) as [identifier|] eqn:E;
    [|exact I].
  now apply findUserIdentifier_Some.
Qed.

Lemma X24_detected_identifier_opens_a_turn_witness :
  match extractUserIdentifier rawSession with
  | Some identifier =>
      identifier <> "" /\
      allChars isIdentifierChar identifier = true /\
      exists before line after,
        splitLines rawSession = before ++ line :: after /\
        startsWith (trim line) (identifier ++ ":") = true /\
        existsb isAgentLine after = true
  | None => True
  end.
Proof.
  apply X24_detected_identifier_opens_a_turn. vm_compute. reflexivity.
Defined.

End MainProps.

(* ------------------------------------------------------------------------- *)
(** * Further properties of the formatters and of the path helpers *)
(* ------------------------------------------------------------------------- *)

Module FormatterProps.

Import Formatters Further.

Lemma splitOn_parts sep s :
  Forall (fun part => allChars (fun c => negb (Ascii.eqb c sep)) part = true)
         (splitOn sep s).
Proof.
  induction s as [|c s IH]; cbn [splitOn].
  - repeat constructor.
  - destruct (Ascii.eqb c sep) eqn:E.
    + constructor; [reflexivity | assumption].
    + destruct (splitOn sep s) as [|l ls]; inversion IH; subst;
        constructor; cbn [allChars]; try rewrite E; auto.
Qed.

Lemma findFileUrl_includes s : forall path,
  findFileUrl s = Some path -> includes s "file:///" = true.
Proof.
  induction s as [|c s IH]; intros path; cbn [findFileUrl].
  - unfold fileUrlAt. cbn. discriminate.
  - rewrite (MainFacts.includes_unfold (String c s)).
    unfold fileUrlAt.
    destruct (startsWith (String c s) "file:///"); [reflexivity|].
    cbn [orb]. apply IH.
Qed.

(** X25: the project root that [extractProjectRoot] detects is always four
    segments deep: a slash and four segments joined by slashes, none of
    them empty and none holding a slash; and it is only detected in a text
    that holds [file:///]. *)
Theorem X25_project_root_has_four_segments
    (decodeURIComponent : string -> option string) (content : string) :
  match extractProjectRoot decodeURIComponent content with
  | Some root =>
      includes content "file:///" = true /\
      exists a b c d,
        root = ("/" ++ a ++ "/" ++ b ++ "/" ++ c ++ "/" ++ d)%string /\
        Forall (fun segment =>
                  segment <> "" /\
                  allChars (fun ch => negb (Ascii.eqb ch "/")) segment = true)
               [a; b; c; d]
  | None => True
  end.
Proof.
  unfold extractProjectRoot.
  destruct (findFileUrl content) as [fullPath|] eqn:Ef; [|exact I].
  set (decoded := safeDecodeURI decodeURIComponent (withLeadingSlash fullPath)).
  assert (Hparts :
    Forall (fun segment =>
              segment <> "" /\
              allChars (fun ch => negb (Ascii.eqb ch "/")) segment = true)
           (filter (fun part => negb (String.eqb part ""))
                   (splitOn "/" decoded))).
  { apply Forall_forall. intros x Hx. apply filter_In in Hx.
    destruct Hx as [Hin Hne]. split.
    - apply negb_true_iff in Hne. now apply String.eqb_neq.
    - pose proof (splitOn_parts "/" decoded) as H.
      rewrite Forall_forall in H. now apply H. }
  destruct (filter (fun part => negb (String.eqb part ""))
                   (splitOn "/" decoded))
    as [|a [|b [|c [|d rest]]]]; try exact I.
  cbn [length Nat.leb firstn]. split; [eapply findFileUrl_includes, Ef|].
  exists a, b, c, d. split; [reflexivity|].
  inversion Hparts as [|? ? Ha H1]; subst.
  inversion H1 as [|? ? Hb H2]; subst.
  inversion H2 as [|? ? Hc H3]; subst.
  inversion H3 as [|? ? Hd _]; subst.
  repeat constructor; tauto.
Qed.

Lemma referenceAt_none c s :
  Ascii.eqb c "#" = false -> referenceAt (String c s) = None.
Proof.
  intros E. rewrite Ascii.eqb_sym in E.
  unfold referenceAt, referenceKinds, referenceOfKind.
  cbn [fold_left fst snd append].
  now rewrite !TransformerProps.startsWith_cons, E.
Qed.

(** X26: the context references all begin with [#]: a text without [#] is
    left as it is by [formatContextReferences]. *)
Theorem X26_no_hash_no_context_reference text :
  allChars (fun c => negb (Ascii.eqb c "#")) text = true ->
  formatContextReferences text = text.
Proof.
  unfold formatContextReferences.
  induction text as [|c text IH]; [reflexivity|].
  cbn [allChars replaceReferences]. intros H.
  apply andb_true_iff in H. destruct H as [Hc Ht].
  apply negb_true_iff in Hc.
  rewrite referenceAt_none by exact Hc. now rewrite (IH Ht).
Qed.

Lemma X26_no_hash_no_context_reference_witness :
  formatContextReferences "see the file a.js and the selection" =
  "see the file a.js and the selection".
Proof.
  apply X26_no_hash_no_context_reference. reflexivity.
Defined.

End FormatterProps.

(* ------------------------------------------------------------------------- *)
(** * Properties of the command line *)
(* ------------------------------------------------------------------------- *)

Module CliProps.

Import Main Cli Further Examples.

Section Script.

Variable decodeURIComponent : string -> option string.
Variable basename : string -> string.
Variable processedDate : string.
Variable stdin : option string.
Variable safeReadFile : string -> option string.
Variable safeWriteFile : string -> string -> bool.

(** X27: whatever the script writes, to the standard output or to a file,
    is a document that holds the processed marker; and a file is only ever
    written at the first argument or at a later argument that is not an
    option. *)
Theorem X27_script_writes_processed_documents piped args :
  match main decodeURIComponent basename processedDate
             stdin safeReadFile safeWriteFile piped args with
  | Stdout text => isAlreadyProcessed text = true
  | Saved path text =>
      isAlreadyProcessed text = true /\
      (path = nth 0 args "" \/
       In path (tl args) /\ startsWith path "--" = false)
  | Help | Exit _ => True
  end.
Proof.
  unfold main.
  destruct (piped && Nat.eqb (length args) 0).
  - destruct stdin as [content|]; [|exact I].
    destruct (processContent decodeURIComponent basename processedDate
                content (existsb (String.eqb "--force") args) true "stdin")
      as [formatted| |code] eqn:E; try exact I.
    pose proof (MainProps.returned_is_processed _ _ _ _ _ _ _ E) as H.
    now destruct formatted.
  - destruct (Nat.eqb (length args) 0 ||
              existsb (String.eqb "--help") args ||
              existsb (String.eqb "-h") args); [exact I|].
    destruct args as [|inputFile rest]; [exact I|].
    unfold formatChatSession.
    destruct (safeReadFile inputFile) as [content|]; [|exact I].
    destruct (processContent decodeURIComponent basename processedDate
                content (existsb (String.eqb "--force") (inputFile :: rest))
                false inputFile)
      as [formatted| |code] eqn:E; try exact I.
    pose proof (MainProps.returned_is_processed _ _ _ _ _ _ _ E) as H.
    destruct formatted as [|x formatted]; [exact I|].
    destruct (find (fun arg => negb (startsWith arg "--")) rest)
      as [[|y file]|] eqn:Ef;
      match goal with
      | |- context [safeWriteFile ?o ?t] => destruct (safeWriteFile o t)
      end; try exact I; (split; [exact H|]); try (now left).
    right. apply find_some in Ef. destruct Ef as [Hin Hopt].
    apply negb_true_iff in Hopt. now split.
Qed.


End Script.


End CliProps.
